(** * Storage keys of the Substrate interface: a shallow embedding

    This development embeds [substrateinterface/storage.py] (class
    [StorageKey]) and proves properties of key generation, key-tail
    decoding, value decoding and the textual representation.

    Definitions:
    - [PyBytes]: Python [bytes], [bytes.hex], [bytes.fromhex], [str.encode];
    - [Scale]: the fragment of the SCALE codec the storage keys go through;
    - [Hasher]: the hash transforms of [utils/hasher.py], as parameters;
    - [Metadata]: the metadata registry and the portable type registry;
    - [Storage]: the class [StorageKey] itself, method by method;
    - [Sample]: a small runtime on which the methods can be evaluated;
    - the vocabulary of the properties.

    Properties: the facts on byte strings and on the codec, the two loops
    of [generate], then the theorems, and in [Examples] the theorems at
    addresses of the sample runtime. *)

From Stdlib Require Import NArith Lia Ascii String DecimalString.
From Stdlib.Strings Require Byte.
From stdpp Require Import base option list strings gmap.

Set Warnings "-register-all".

(** ** Python byte strings *)

Module PyBytes.

Abbreviation byte := Init.Byte.byte.
Abbreviation bytes := (list Init.Byte.byte).

#[export] Instance byte_eq_dec : EqDecision byte := Byte.byte_eq_dec.

(** [byte_of_N n] is the byte [n mod 256]. *)
Definition byte_of_N (n : N) : byte :=
  match Byte.of_N (n mod 256) with
  | Some b => b
  | None => Byte.x00
  end.

(** One lowercase hexadecimal digit, as [bytes.hex] prints it. *)
Definition hex_digit (n : N) : ascii :=
  if (n <? 10)%N then ascii_of_N (48 + n) else ascii_of_N (87 + n).

(** Value of a hexadecimal digit; [bytes.fromhex] takes both cases. *)
Definition hex_val (c : ascii) : option N :=
  let n := N_of_ascii c in
  if ((48 <=? n) && (n <=? 57))%N then Some (n - 48)%N
  else if ((97 <=? n) && (n <=? 102))%N then Some (n - 87)%N
  else if ((65 <=? n) && (n <=? 70))%N then Some (n - 55)%N
  else None.

(** ASCII whitespace, skipped by [bytes.fromhex] between bytes. *)
Definition is_space (c : ascii) : bool :=
  let n := N_of_ascii c in
  ((n =? 32) || ((9 <=? n) && (n <=? 13)))%N.

(** [data.hex()] *)
Fixpoint hex (data : bytes) : string :=
  match data with
  | [] => EmptyString
  | b :: rest =>
      String (hex_digit (Byte.to_N b / 16))
        (String (hex_digit (Byte.to_N b mod 16)) (hex rest))
  end.

(** [bytes.fromhex(s)]; [None] stands for the [ValueError] it raises. *)
Fixpoint fromhex (s : string) : option bytes :=
  match s with
  | EmptyString => Some []
  | String c rest =>
      if is_space c then fromhex rest
      else
        match rest with
        | EmptyString => None
        | String d rest' =>
            match hex_val c, hex_val d, fromhex rest' with
            | Some hi, Some lo, Some tl => Some (byte_of_N (16 * hi + lo) :: tl)
            | _, _, _ => None
            end
        end
  end.

(** [s[n:]] for [0 <= n]. *)
Fixpoint str_drop (n : nat) (s : string) : string :=
  match n, s with
  | O, _ => s
  | S n', EmptyString => EmptyString
  | S n', String _ rest => str_drop n' rest
  end.

(** [s[0:n]]. *)
Fixpoint str_take (n : nat) (s : string) : string :=
  match n, s with
  | S n', String c rest => String c (str_take n' rest)
  | _, _ => EmptyString
  end.

(** [s.encode()]: a [string] here already is its UTF-8 byte sequence. *)
Fixpoint str_encode (s : string) : bytes :=
  match s with
  | EmptyString => []
  | String c rest => byte_of_N (N_of_ascii c) :: str_encode rest
  end.

(** [str(n)] for a natural number. *)
Definition str_of_nat (n : nat) : string :=
  NilZero.string_of_uint (Nat.to_uint n).

(** The double quote character, for the error messages. *)
Definition dquote : string := String (ascii_of_nat 34) EmptyString.

End PyBytes.
Import PyBytes.

(** ** The SCALE codec

    [scalecodec] is an external library.  The storage keys only use its
    interface: a type definition is instantiated ([new]) and the instance
    encodes a native value to bytes or decodes bytes to a native value.
    The fragment below follows the SCALE format: fixed-width unsigned
    integers are little-endian, a boolean is one byte, an array and a tuple
    are the concatenation of their elements, an option is a tag byte
    followed by the payload.  [None] stands for the codec's exception
    (not enough bytes, a value of the wrong shape, a tuple that was made
    without element types). *)

Module Scale.

(** [ScaleBytes]: the byte buffer a decoder reads from its start. *)
Abbreviation ScaleBytes := bytes.

Inductive ScaleTypeDef : Type :=
| U8
| U16
| U32
| U64
| Bool
| Array (element : ScaleTypeDef) (len : nat)
| Tuple (values : list ScaleTypeDef)
| Option (some : ScaleTypeDef).

(** Native (Python) values: [int], [bool], [bytes], [list], [tuple], [None]. *)
Inductive value : Type :=
| VInt (n : N)
| VBool (b : bool)
| VBytes (b : bytes)
| VList (vs : list value)
| VTuple (vs : list value)
| VNone.

Definition is_U8 (T : ScaleTypeDef) : bool :=
  match T with U8 => true | _ => false end.

Fixpoint le_encode (width : nat) (n : N) : bytes :=
  match width with
  | O => []
  | S w => byte_of_N n :: le_encode w (n / 256)
  end.

Fixpoint le_decode (data : bytes) : N :=
  match data with
  | [] => 0%N
  | b :: rest => (Byte.to_N b + 256 * le_decode rest)%N
  end.

Definition encode_uint (width : nat) (v : value) : option bytes :=
  match v with
  | VInt n => if (n <? 256 ^ N.of_nat width)%N then Some (le_encode width n) else None
  | _ => None
  end.

Definition decode_uint (width : nat) (data : bytes) : option (value * bytes) :=
  if decide (width ≤ length data)
  then Some (VInt (le_decode (take width data)), drop width data)
  else None.

Definition decoder : Type := bytes → option (value * bytes).
Definition encoder : Type := value → option bytes.

(** Elements one after the other, each from where the previous one stopped. *)
Fixpoint decode_fields (decs : list decoder) (data : bytes)
  : option (list value * bytes) :=
  match decs with
  | [] => Some ([], data)
  | dec :: decs' =>
      match dec data with
      | Some (v, data') =>
          match decode_fields decs' data' with
          | Some (vs, data'') => Some (v :: vs, data'')
          | None => None
          end
      | None => None
      end
  end.

Fixpoint encode_fields (encs : list encoder) (vs : list value) : option bytes :=
  match encs, vs with
  | [], [] => Some []
  | enc :: encs', v :: vs' =>
      match enc v, encode_fields encs' vs' with
      | Some b, Some bs => Some (b ++ bs)
      | _, _ => None
      end
  | _, _ => None
  end.

(** [T.new().decode(ScaleBytes(data))]: the value and the unread bytes. *)
Fixpoint decode (T : ScaleTypeDef) (data : bytes) {struct T}
  : option (value * bytes) :=
  match T with
  | U8 => decode_uint 1 data
  | U16 => decode_uint 2 data
  | U32 => decode_uint 4 data
  | U64 => decode_uint 8 data
  | Bool =>
      match data with
      | Byte.x00 :: rest => Some (VBool false, rest)
      | Byte.x01 :: rest => Some (VBool true, rest)
      | _ => None
      end
  | Array T' n =>
      if is_U8 T' then
        if decide (n ≤ length data)
        then Some (VBytes (take n data), drop n data)
        else None
      else
        match decode_fields (repeat (decode T') n) data with
        | Some (vs, rest) => Some (VList vs, rest)
        | None => None
        end
  | Tuple Ts =>
      (* [Tuple()], made without element types, has none to go through:
         the loop of the codec over them raises (a [TypeError] of its own) *)
      match Ts with
      | [] => None
      | _ :: _ =>
          match decode_fields (map decode Ts) data with
          | Some (vs, rest) => Some (VTuple vs, rest)
          | None => None
          end
      end
  | Option T' =>
      match data with
      | [] => None
      | Byte.x00 :: rest => Some (VNone, rest)
      | _ :: rest => decode T' rest
      end
  end.

(** [T.new().encode(v)]: the bytes of the [ScaleBytes] it returns. *)
Fixpoint encode (T : ScaleTypeDef) (v : value) {struct T} : option bytes :=
  match T with
  | U8 => encode_uint 1 v
  | U16 => encode_uint 2 v
  | U32 => encode_uint 4 v
  | U64 => encode_uint 8 v
  | Bool =>
      match v with
      | VBool b => Some [if b then Byte.x01 else Byte.x00]
      | _ => None
      end
  | Array T' n =>
      if is_U8 T' then
        match v with
        | VBytes b => if decide (length b = n) then Some b else None
        | _ => None
        end
      else
        match v with
        | VList vs => encode_fields (repeat (encode T') n) vs
        | _ => None
        end
  | Tuple Ts =>
      (* as for [decode], no element types to go through *)
      match Ts, v with
      | _ :: _, VTuple vs => encode_fields (map encode Ts) vs
      | _, _ => None
      end
  | Option T' =>
      match v with
      | VNone => Some [Byte.x00]
      | _ => match encode T' v with
             | Some b => Some (Byte.x01 :: b)
             | None => None
             end
      end
  end.

(** An encoder and a decoder of which the second undoes the first,
    whatever bytes follow. *)
Definition roundtrips (enc : encoder) (dec : decoder) : Prop :=
  ∀ v b rest, enc v = Some b → dec (b ++ rest) = Some (v, rest).

End Scale.
Import Scale.

(** ** Exceptions

    The exceptions a method of [StorageKey] can end with.  The two
    [ValueError]s of [generate] and the two [StorageFunctionNotFound]s are
    told apart by their message, as in the source.  [ScaleError] stands
    for an exception that is raised inside the codec, of whatever class
    the library gives it. *)

Inductive exception : Type :=
| StorageFunctionNotFound (msg : string)
| ValueError (msg : string)
| IndexError
| TypeError
| AttributeError
| ScaleError.

(** Code that can raise: [inl] is the exception, [inr] the result. *)
Abbreviation result := (sum exception).

#[export] Instance result_ret : MRet result := λ A a, inr a.
#[export] Instance result_bind : MBind result := λ A B f m,
  match m with
  | inl e => inl e
  | inr a => f a
  end.

#[export] Instance result_fmap : FMap result := λ A B f m,
  match m with
  | inl e => inl e
  | inr a => inr (f a)
  end.

Definition or_raise {A} (e : exception) (o : option A) : result A :=
  match o with
  | Some a => inr a
  | None => inl e
  end.

(** [f'{x}'] for a string that may be [None]. *)
Definition py_str (o : option string) : string :=
  match o with
  | Some s => s
  | None => "None"
  end.

(** Truth value of a string that may be [None]. *)
Definition truthy_str (o : option string) : bool :=
  match o with
  | Some (String _ _) => true
  | _ => false
  end.

(** Truth value of a byte string that may be [None]. *)
Definition truthy_bytes (o : option bytes) : bool :=
  match o with
  | Some (_ :: _) => true
  | _ => false
  end.

(** [ScaleBytes(s)] for a string [s]: it has to be ["0x"] and hex digits. *)
Definition ScaleBytes_of_str (s : string) : result ScaleBytes :=
  match s with
  | String "0" (String "x" digits) =>
      or_raise (ValueError "non-hexadecimal number found in fromhex()") (fromhex digits)
  | _ => inl (ValueError "Provided data is not in supported format")
  end.

(** ** The hash transforms *)

Module Hasher.

(** The functions of [utils/hasher.py] that [storage.py] imports: the six
    hash transforms and [concat_hash_len], which [create_key_type_def]
    calls on a declared hash kind.  The module is not among the sources:
    its functions are taken as they come, and what a property needs to
    know of them is stated as [HashLengths] and [ConcatLaws]. *)
Class HashPrimitives : Type := {
  blake2_256 : bytes → bytes;
  blake2_128 : bytes → bytes;
  blake2_128_concat : bytes → bytes;
  xxh128 : bytes → bytes;
  two_x64_concat : bytes → bytes;
  identity : bytes → bytes;
  concat_hash_len : option string → result nat;
}.

(** The output lengths of the transforms: 32 and 16 bytes for the hashes
    of the input alone, the length of the hash and of the input for the
    concatenating ones, the length of the input for the identity. *)
Class HashLengths `{HashPrimitives} : Prop := {
  blake2_256_length : ∀ input, length (blake2_256 input) = 32;
  blake2_128_length : ∀ input, length (blake2_128 input) = 16;
  blake2_128_concat_length : ∀ input, length (blake2_128_concat input) = 16 + length input;
  xxh128_length : ∀ input, length (xxh128 input) = 16;
  two_x64_concat_length : ∀ input, length (two_x64_concat input) = 8 + length input;
  identity_length : ∀ input, length (identity input) = length input;
}.

(** The concatenating transforms end with the input unchanged, after a
    hash of 16, 8 and 0 bytes, and [concat_hash_len] gives the length of
    that hash for their names. *)
Class ConcatLaws `{HashPrimitives} : Prop := {
  blake2_128_concat_input : ∀ input, drop 16 (blake2_128_concat input) = input;
  two_x64_concat_input : ∀ input, drop 8 (two_x64_concat input) = input;
  identity_input : ∀ input, identity input = input;
  concat_len_blake2_128 : concat_hash_len (Some "Blake2_128Concat") = inr 16;
  concat_len_twox64 : concat_hash_len (Some "Twox64Concat") = inr 8;
  concat_len_identity : concat_hash_len (Some "Identity") = inr 0;
}.

End Hasher.
Import Hasher.

(** ** The metadata registry *)

Module Metadata.

(** A type identifier is a name of a primitive ([str]) or an index. *)
Inductive type_id : Type :=
| TypeName (name : string)
| TypeIndex (idx : nat).

(** A storage function of a pallet, with what the storage keys read of it. *)
Record StorageEntry : Type := {
  entry_name : string;
  modifier : string;
  default_bytes : bytes;
  get_value_type_id : type_id;
  get_params_type_id : option nat;
  get_param_hashers : list (option string);
  get_value_type_string : string;
}.

Record PalletStorage : Type := {
  prefix : string;
  entries : list StorageEntry;
}.

Record Pallet : Type := {
  pallet_name : string;
  storage : option PalletStorage;
}.

Record PortableRegistry : Type := {
  primitives : gmap string ScaleTypeDef;
  types : gmap nat ScaleTypeDef;
}.

Record GenericMetadataVersioned : Type := {
  pallets : list Pallet;
  portable_registry : PortableRegistry;
}.

(** The first pallet of that name; [None] is no name of a pallet. *)
Definition get_metadata_pallet (m : GenericMetadataVersioned) (name : option string)
  : option Pallet :=
  List.find (λ p, bool_decide (Some (pallet_name p) = name)) (pallets m).

(** The first storage function of that name, when the pallet has storage. *)
Definition get_storage_function (p : Pallet) (name : option string)
  : option StorageEntry :=
  match storage p with
  | Some s => List.find (λ e, bool_decide (Some (entry_name e) = name)) (entries s)
  | None => None
  end.

Definition get_type_def_primitive (r : PortableRegistry) (name : string)
  : result ScaleTypeDef :=
  or_raise ScaleError (primitives r !! name).

Definition get_scale_type_def (r : PortableRegistry) (idx : nat)
  : result ScaleTypeDef :=
  or_raise ScaleError (types r !! idx).

End Metadata.
Import Metadata.

(** ** The class [StorageKey] *)

Module Storage.

(** A parameter is already encoded ([ScaleBytes]) or a native value. *)
Inductive param : Type :=
| Encoded (raw : ScaleBytes)
| Native (v : value).

(** [value_scale_type] holds a type string ([create_from_data]) or a type
    definition ([generate]). *)
Inductive scale_type_ref : Type :=
| TypeString (s : string)
| TypeDef (T : ScaleTypeDef).

Record RuntimeConfigurationObject : Type := {
  ss58_format : nat;
}.

Record StorageKey : Type := {
  pallet : option string;
  storage_function : option string;
  params : option (list param);
  params_encoded : list ScaleBytes;
  data : option bytes;
  metadata : GenericMetadataVersioned;
  runtime_config : RuntimeConfigurationObject;
  value_scale_type : option scale_type_ref;
  param_scale_types : option (list ScaleTypeDef);
  param_hashers : option (list (option string));
  metadata_storage_function : option StorageEntry;
}.

(** A decoded object: its type, its value and the [meta_info] entry
    [result_found] once [decode_scale_value] has set it. *)
Record ScaleType : Type := {
  scale_type_def : ScaleTypeDef;
  scale_value : value;
  meta_info : option bool;
}.

(** [StorageKey.__init__] *)
Definition init (pallet storage_function : option string)
    (params : option (list param)) (data : option bytes)
    (value_scale_type : option scale_type_ref)
    (param_scale_types : option (list ScaleTypeDef))
    (metadata : GenericMetadataVersioned)
    (runtime_config : RuntimeConfigurationObject) : StorageKey :=
  {| pallet := pallet;
     storage_function := storage_function;
     params := params;
     params_encoded := [];
     data := data;
     metadata := metadata;
     runtime_config := runtime_config;
     value_scale_type := value_scale_type;
     param_scale_types := param_scale_types;
     param_hashers := None;
     metadata_storage_function := None |}.

(** *** Assignments to the attributes of [self] *)

Definition set_params_encoded (x : list ScaleBytes) (self : StorageKey) : StorageKey :=
  {| pallet := pallet self; storage_function := storage_function self;
     params := params self; params_encoded := x; data := data self;
     metadata := metadata self; runtime_config := runtime_config self;
     value_scale_type := value_scale_type self;
     param_scale_types := param_scale_types self;
     param_hashers := param_hashers self;
     metadata_storage_function := metadata_storage_function self |}.

Definition set_data (x : option bytes) (self : StorageKey) : StorageKey :=
  {| pallet := pallet self; storage_function := storage_function self;
     params := params self; params_encoded := params_encoded self; data := x;
     metadata := metadata self; runtime_config := runtime_config self;
     value_scale_type := value_scale_type self;
     param_scale_types := param_scale_types self;
     param_hashers := param_hashers self;
     metadata_storage_function := metadata_storage_function self |}.

Definition set_value_scale_type (x : option scale_type_ref) (self : StorageKey) : StorageKey :=
  {| pallet := pallet self; storage_function := storage_function self;
     params := params self; params_encoded := params_encoded self;
     data := data self;
     metadata := metadata self; runtime_config := runtime_config self;
     value_scale_type := x;
     param_scale_types := param_scale_types self;
     param_hashers := param_hashers self;
     metadata_storage_function := metadata_storage_function self |}.

Definition set_param_scale_types (x : option (list ScaleTypeDef)) (self : StorageKey) : StorageKey :=
  {| pallet := pallet self; storage_function := storage_function self;
     params := params self; params_encoded := params_encoded self;
     data := data self;
     metadata := metadata self; runtime_config := runtime_config self;
     value_scale_type := value_scale_type self;
     param_scale_types := x;
     param_hashers := param_hashers self;
     metadata_storage_function := metadata_storage_function self |}.

Definition set_param_hashers (x : option (list (option string))) (self : StorageKey) : StorageKey :=
  {| pallet := pallet self; storage_function := storage_function self;
     params := params self; params_encoded := params_encoded self;
     data := data self;
     metadata := metadata self; runtime_config := runtime_config self;
     value_scale_type := value_scale_type self;
     param_scale_types := param_scale_types self;
     param_hashers := x;
     metadata_storage_function := metadata_storage_function self |}.

Definition set_metadata_storage_function (x : option StorageEntry) (self : StorageKey) : StorageKey :=
  {| pallet := pallet self; storage_function := storage_function self;
     params := params self; params_encoded := params_encoded self;
     data := data self;
     metadata := metadata self; runtime_config := runtime_config self;
     value_scale_type := value_scale_type self;
     param_scale_types := param_scale_types self;
     param_hashers := param_hashers self;
     metadata_storage_function := x |}.

(** *** Methods that assign to [self]

    A method is run on the object [self] and ends with a result or an
    exception; either way the assignments made so far stay on the object. *)

Definition method (A : Type) : Type := StorageKey → result A * StorageKey.

#[export] Instance method_ret : MRet method := λ A a self, (inr a, self).
#[export] Instance method_bind : MBind method := λ A B f m self,
  match m self with
  | (inr a, self') => f a self'
  | (inl e, self') => (inl e, self')
  end.

Definition raise {A} (e : exception) : method A := λ self, (inl e, self).
Definition gets {A} (f : StorageKey → A) : method A := λ self, (inr (f self), self).
Definition modify (f : StorageKey → StorageKey) : method unit := λ self, (inr (), f self).
Definition lift {A} (r : result A) : method A := λ self, (r, self).

(** *** Error messages *)

Definition pallet_not_found (pallet : option string) : exception :=
  StorageFunctionNotFound ("Pallet " +:+ dquote +:+ py_str pallet +:+ dquote +:+ " not found").

Definition storage_function_not_found (pallet storage_function : option string) : exception :=
  StorageFunctionNotFound
    ("Storage function " +:+ dquote +:+ py_str pallet +:+ "." +:+ py_str storage_function
       +:+ dquote +:+ " not found").

Definition no_hasher_found (idx : nat) : exception :=
  ValueError ("No hasher found for param #" +:+ str_of_nat (idx + 1)).

Definition unknown_storage_hasher (param_hasher : string) : exception :=
  ValueError ("Unknown storage hasher " +:+ dquote +:+ param_hasher +:+ dquote).

(** [create_from_data] *)
Definition create_from_data (raw : bytes) (runtime_config : RuntimeConfigurationObject)
    (metadata : GenericMetadataVersioned) (value_scale_type pallet storage_function : option string)
  : result StorageKey :=
  value_scale_type ←
    (if negb (truthy_str value_scale_type) && truthy_str pallet && truthy_str storage_function
     then
       metadata_pallet ← or_raise (pallet_not_found pallet) (get_metadata_pallet metadata pallet);
       storage_item ← or_raise (storage_function_not_found pallet storage_function)
                        (get_storage_function metadata_pallet storage_function);
       mret (Some (get_value_type_string storage_item))
     else mret value_scale_type);
  mret (init pallet storage_function None (Some raw)
          (TypeString <$> value_scale_type) None metadata runtime_config).

(** [to_hex]: [None] when there is no data. *)
Definition to_hex (self : StorageKey) : option string :=
  if truthy_bytes (data self)
  then (λ d, "0x" +:+ hex d) <$> data self
  else None.

Section WithHashPrimitives.
Context `{HashPrimitives}.

(** The chain of comparisons on the name of the hash kind. *)
Definition apply_hasher (param_hasher : string) (params_key : bytes) : result bytes :=
  if decide (param_hasher = "Blake2_256") then inr (blake2_256 params_key)
  else if decide (param_hasher = "Blake2_128") then inr (blake2_128 params_key)
  else if decide (param_hasher = "Blake2_128Concat") then inr (blake2_128_concat params_key)
  else if decide (param_hasher = "Twox128") then inr (xxh128 params_key)
  else if decide (param_hasher = "Twox64Concat") then inr (two_x64_concat params_key)
  else if decide (param_hasher = "Identity") then inr (identity params_key)
  else inl (unknown_storage_hasher param_hasher).

(** [if not param_hasher: param_hasher = 'Twox128']: an entry that is
    [None] or empty stands for the default hash kind. *)
Definition default_hasher (param_hasher : option string) : string :=
  if truthy_str param_hasher then py_str param_hasher else "Twox128".

(** The value type of a storage function, from its type identifier. *)
Definition resolve_value_scale_type (registry : PortableRegistry) (function : StorageEntry)
  : result ScaleTypeDef :=
  match get_value_type_id function with
  | TypeName name => get_type_def_primitive registry name
  | TypeIndex idx => get_scale_type_def registry idx
  end.

(** The parameter types of a storage function: none without a parameter
    type identifier, the fields of a tuple, or the one type it names. *)
Definition resolve_param_scale_types (registry : PortableRegistry) (function : StorageEntry)
  : result (list ScaleTypeDef) :=
  match get_params_type_id function with
  | None => mret []
  | Some param_type_id =>
      param_types_def ← get_scale_type_def registry param_type_id;
      match param_types_def with
      | Tuple values => mret values
      | _ => mret [param_types_def]
      end
  end.

(** Body of the first loop of [generate]: the encoded form of the
    parameter at [idx], given [self.param_scale_types]. *)
Definition encode_param (types : option (list ScaleTypeDef)) (idx : nat) (p : param)
  : result ScaleBytes :=
  match p with
  | Encoded raw => mret raw
  | Native v =>
      types ← or_raise TypeError types;
      T ← or_raise IndexError (types !! idx);
      or_raise ScaleError (encode T v)
  end.

(** First loop of [generate]: [self.params_encoded] gets one more element
    for each parameter, [idx] counting from where the loop is. *)
Fixpoint encode_params (idx : nat) (ps : list param) : method unit :=
  match ps with
  | [] => mret ()
  | p :: ps' =>
      types ← gets param_scale_types;
      encoded ← lift (encode_param types idx p);
      modify (λ self, set_params_encoded (params_encoded self ++ [encoded]) self);;
      encode_params (S idx) ps'
  end.

(** Body of the second loop of [generate]: what the parameter at [idx]
    adds to the key, given [self.param_hashers].  [self.params_encoded]
    only has [ScaleBytes] in it: the bytes to hash are [param.data]. *)
Definition hash_param (hashers : option (list (option string))) (idx : nat) (p : ScaleBytes)
  : result bytes :=
  hashers ← or_raise TypeError hashers;
  param_hasher ← or_raise (no_hasher_found idx) (hashers !! idx);
  let params_key := [] ++ p in
  let param_hasher := default_hasher param_hasher in
  apply_hasher param_hasher params_key.

(** Second loop of [generate], over [self.params_encoded]. *)
Fixpoint hash_params (idx : nat) (encoded : list ScaleBytes) (storage_hash : bytes)
  : method bytes :=
  match encoded with
  | [] => mret storage_hash
  | p :: encoded' =>
      hashers ← gets param_hashers;
      segment ← lift (hash_param hashers idx p);
      hash_params (S idx) encoded' (storage_hash ++ segment)
  end.

(** [generate] *)
Definition generate : method bytes :=
  metadata_pallet ← gets (λ self, get_metadata_pallet (metadata self) (pallet self));
  match metadata_pallet with
  | None => self_pallet ← gets pallet; raise (pallet_not_found self_pallet)
  | Some metadata_pallet =>
      found ← gets (λ self, get_storage_function metadata_pallet (storage_function self));
      modify (set_metadata_storage_function found);;
      match found with
      | None =>
          self_pallet ← gets pallet;
          self_function ← gets storage_function;
          raise (storage_function_not_found self_pallet self_function)
      | Some function =>
          registry ← gets (λ self, portable_registry (metadata self));
          value_type ← lift (resolve_value_scale_type registry function);
          modify (set_value_scale_type (Some (TypeDef value_type)));;
          param_types ← lift (resolve_param_scale_types registry function);
          modify (set_param_scale_types (Some param_types));;
          modify (set_param_hashers (Some (get_param_hashers function)));;
          storage ← lift (or_raise TypeError (storage metadata_pallet));
          self_function ← gets storage_function;
          function_name ← lift (or_raise AttributeError self_function);
          let storage_hash :=
            xxh128 (str_encode (prefix storage)) ++ xxh128 (str_encode function_name) in
          modify (set_params_encoded []);;
          self_params ← gets params;
          storage_hash ←
            match self_params with
            | Some ((_ :: _) as ps) =>
                encode_params 0 ps;;
                encoded ← gets params_encoded;
                hash_params 0 encoded storage_hash
            | _ => mret storage_hash
            end;
          modify (set_data (Some storage_hash));;
          mret storage_hash
      end
  end.

(** [create_from_storage_function]: the object is returned only when
    [generate] has not raised. *)
Definition create_from_storage_function (pallet storage_function : option string)
    (params : option (list param)) (runtime_config : RuntimeConfigurationObject)
    (metadata : GenericMetadataVersioned) : result StorageKey :=
  let storage_key_obj := init pallet storage_function params None None None metadata runtime_config in
  match generate storage_key_obj with
  | (inr _, storage_key_obj) => inr storage_key_obj
  | (inl e, _) => inl e
  end.

(** The loop of [create_key_type_def], over the indices [ns] of
    [range(param_count, len(self.param_scale_types))]. *)
Fixpoint key_items (self : StorageKey) (types : list ScaleTypeDef) (ns : list nat)
  : result (list ScaleTypeDef) :=
  match ns with
  | [] => mret []
  | n :: ns' =>
      hashers ← or_raise TypeError (param_hashers self);
      hasher ← or_raise IndexError (hashers !! n);
      block ← concat_hash_len hasher;
      T ← or_raise IndexError (types !! n);
      rest ← key_items self types ns';
      mret (Array U8 block :: T :: rest)
  end.

(** [create_key_type_def] *)
Definition create_key_type_def (self : StorageKey) (param_count : nat) : result ScaleTypeDef :=
  types ← or_raise TypeError (param_scale_types self);
  items ← key_items self types (seq param_count (length types - param_count));
  mret (Tuple items).

(** [obj = T.new(); obj.decode(ScaleBytes(raw))]: the codec raises when
    bytes are missing; bytes that remain after the value are left unread
    ([decode] is called without [check_remaining]). *)
Definition decode_new (T : ScaleTypeDef) (raw : ScaleBytes) : result ScaleType :=
  match decode T raw with
  | Some (v, _) => inr {| scale_type_def := T; scale_value := v; meta_info := None |}
  | None => inl ScaleError
  end.

(** [decode_key_data] *)
Definition decode_key_data (self : StorageKey) (hex_data : string) (param_count : nat)
  : result ScaleType :=
  key_type ← create_key_type_def self param_count;
  self_hex ← or_raise TypeError (to_hex self);
  raw ← ScaleBytes_of_str ("0x" +:+ str_drop (String.length self_hex) hex_data);
  decode_new key_type raw.

(** The type definition an attribute holds, to call [new] on it. *)
Definition as_type_def (t : option scale_type_ref) : result ScaleTypeDef :=
  match t with
  | Some (TypeDef T) => inr T
  | _ => inl AttributeError
  end.

(** [decode_scale_value]; the argument is [None], a [ScaleBytes] or a string. *)
Definition decode_scale_value (self : StorageKey) (raw : option (ScaleBytes + string))
  : result ScaleType :=
  raw ← match raw with
        | Some (inr s) => Some <$> ScaleBytes_of_str s
        | Some (inl b) => mret (Some b)
        | None => mret None
        end;
  let result_found := false in
  '(change_scale_type, raw, result_found) ←
    match raw with
    | Some b => mret (as_type_def (value_scale_type self), b, true)
    | None =>
        function ← or_raise AttributeError (metadata_storage_function self);
        if decide (modifier function = "Default")
        then mret (as_type_def (value_scale_type self), default_bytes function, result_found)
        else mret (Option <$> as_type_def (value_scale_type self),
                   default_bytes function, result_found)
    end;
  change_scale_type ← change_scale_type;
  updated_obj ← decode_new change_scale_type raw;
  mret {| scale_type_def := scale_type_def updated_obj;
          scale_value := scale_value updated_obj;
          meta_info := Some result_found |}.

End WithHashPrimitives.

Section Repr.
(** [repr] of the list of parameters, as the builtin prints it. *)
Variable repr_params : option (list param) → string.

(** [__repr__]: [fuel] bounds the depth of the calls, [None] is a call
    that has not returned within it. *)
Fixpoint repr (fuel : nat) (self : StorageKey) : option string :=
  match fuel with
  | O => None
  | S fuel' =>
      if truthy_str (pallet self) && truthy_str (storage_function self)
      then Some ("<StorageKey(pallet=" +:+ py_str (pallet self)
                   +:+ ", storage_function=" +:+ py_str (storage_function self)
                   +:+ ", params=" +:+ repr_params (params self) +:+ ")>")
      else if truthy_bytes (data self)
      then Some ("<StorageKey(data=0x" +:+ from_option hex EmptyString (data self) +:+ ")>")
      else repr fuel' self
  end.

End Repr.

(** The values [convert_storage_parameter] is written for: [bytes], and
    strings (a hexadecimal string or an SS58 address). *)
Inductive storage_parameter : Type :=
| ParamBytes (b : bytes)
| ParamStr (s : string).

Section Convert.
(** [ss58_decode(address, valid_ss58_format)] of [scalecodec.utils.ss58]:
    the hexadecimal digits of the account, or the exception it raises. *)
Variable ss58_decode : string → nat → result string.

(** [convert_storage_parameter] *)
Definition convert_storage_parameter (self : StorageKey) (scale_type : string)
    (value : storage_parameter) : result string :=
  let value := match value with
               | ParamBytes b => "0x" +:+ hex b
               | ParamStr s => s
               end in
  if decide (scale_type = "AccountId") then
    if negb (bool_decide (str_take 2 value = "0x")) then
      account ← ss58_decode value (ss58_format (runtime_config self));
      mret ("0x" +:+ account)
    else mret value
  else mret value.

End Convert.
End Storage.
Import Storage.

(** ** Addresses that resolve *)

(** What the metadata declares for an address: the pallet and its storage,
    the storage function and its name, the value type, the parameter types. *)
Record resolution : Type := {
  res_pallet : Pallet;
  res_storage : PalletStorage;
  res_function : StorageEntry;
  res_name : string;
  res_value_type : ScaleTypeDef;
  res_param_types : list ScaleTypeDef;
}.

(** The address of [self] resolves to [r] against the metadata of [self]. *)
Definition resolves (self : StorageKey) (r : resolution) : Prop :=
  get_metadata_pallet (metadata self) (pallet self) = Some (res_pallet r) ∧
  storage (res_pallet r) = Some (res_storage r) ∧
  storage_function self = Some (res_name r) ∧
  get_storage_function (res_pallet r) (Some (res_name r)) = Some (res_function r) ∧
  resolve_value_scale_type (portable_registry (metadata self)) (res_function r)
    = inr (res_value_type r) ∧
  resolve_param_scale_types (portable_registry (metadata self)) (res_function r)
    = inr (res_param_types r).

(** The parameters the loops of [generate] go through: none for [None]. *)
Definition supplied (ps : option (list param)) : list param := from_option id [] ps.

(** The attributes [generate] has assigned once the address is resolved
    and the parameters are encoded to [bs]. *)
Definition resolved (r : resolution) (bs : list ScaleBytes) (self : StorageKey) : StorageKey :=
  set_params_encoded bs
    (set_param_hashers (Some (get_param_hashers (res_function r)))
       (set_param_scale_types (Some (res_param_types r))
          (set_value_scale_type (Some (TypeDef (res_value_type r)))
             (set_metadata_storage_function (Some (res_function r)) self)))).

(** ** A runtime to run the methods on

    A small metadata: one pallet with storage functions of each kind, and
    stand-ins for the digests, of the right lengths, so that the methods
    can be evaluated. *)

Module Sample.

(** [digest_size] bytes that depend on the seed and on the input. *)
Definition sample_digest (digest_size : nat) (seed : N) (input : bytes) : bytes :=
  le_encode digest_size (seed + 1 + 7 * le_decode input).

(** The block sizes [concat_hash_len] returns for the concatenating kinds;
    any other kind is unsupported. *)
Definition sample_concat_hash_len (key_hasher : option string) : result nat :=
  if decide (key_hasher = Some "Blake2_128Concat") then inr 16
  else if decide (key_hasher = Some "Twox64Concat") then inr 8
  else if decide (key_hasher = Some "Identity") then inr 0
  else inl (ValueError "Unsupported hash type").

#[export] Instance sample_primitives : HashPrimitives := {|
  blake2_256 input := sample_digest 32 0 input;
  blake2_128 input := sample_digest 16 0 input;
  blake2_128_concat input := sample_digest 16 0 input ++ input;
  xxh128 input := sample_digest 8 0 input ++ sample_digest 8 1 input;
  two_x64_concat input := sample_digest 8 0 input ++ input;
  identity input := input;
  concat_hash_len := sample_concat_hash_len;
|}.

Definition entry (name modifier : string) (default : bytes) (value_type : type_id)
    (params_type : option nat) (hashers : list (option string)) : StorageEntry :=
  {| entry_name := name; modifier := modifier; default_bytes := default;
     get_value_type_id := value_type; get_params_type_id := params_type;
     get_param_hashers := hashers; get_value_type_string := "u8" |}.

Definition registry : PortableRegistry :=
  {| primitives := {[ "u8" := U8 ]};
     types := {[ 0 := U8; 1 := U16; 2 := Tuple [U8; U16];
                 3 := Tuple [U16; U32; Bool] ]} |}.

Definition system : Pallet :=
  {| pallet_name := "System";
     storage := Some
       {| prefix := "System";
          entries :=
            [ entry "Counter" "Default" [Byte.x2a] (TypeIndex 0) None [];
              entry "Maybe" "Optional" [Byte.x00] (TypeName "u8") None [];
              entry "Pairs" "Optional" [Byte.x00] (TypeIndex 0) (Some 2)
                [Some "Twox128"; Some "Twox64Concat"];
              entry "Triples" "Optional" [Byte.x00] (TypeIndex 0) (Some 3)
                [Some "Blake2_128Concat"; Some "Twox64Concat"; Some "Identity"];
              entry "Single" "Optional" [Byte.x00] (TypeIndex 0) (Some 0)
                [Some "Keccak256"];
              entry "Unhashed" "Optional" [Byte.x00] (TypeIndex 0) (Some 1) [None];
              entry "Accounts" "Optional" [Byte.x00] (TypeIndex 0) (Some 1)
                [Some "Blake2_128Concat"] ] |} |}.

Definition sample_metadata : GenericMetadataVersioned :=
  {| pallets := [ {| pallet_name := "Timestamp"; storage := None |}; system ];
     portable_registry := registry |}.

Definition config : RuntimeConfigurationObject := {| ss58_format := 42 |}.

(** The object [__init__] makes for an address, before [generate]. *)
Definition address (function : string) (ps : option (list param)) : StorageKey :=
  init (Some "System") (Some function) ps None None None sample_metadata config.

(** What the sample metadata declares for a storage function of [system]. *)
Definition declared (function : StorageEntry) (types : list ScaleTypeDef) : resolution :=
  {| res_pallet := system;
     res_storage := {| prefix := "System";
                       entries := from_option entries [] (storage system) |};
     res_function := function;
     res_name := entry_name function;
     res_value_type := U8;
     res_param_types := types |}.

Definition counter : StorageEntry :=
  entry "Counter" "Default" [Byte.x2a] (TypeIndex 0) None [].
Definition maybe : StorageEntry :=
  entry "Maybe" "Optional" [Byte.x00] (TypeName "u8") None [].
Definition pairs : StorageEntry :=
  entry "Pairs" "Optional" [Byte.x00] (TypeIndex 0) (Some 2)
    [Some "Twox128"; Some "Twox64Concat"].
Definition triples : StorageEntry :=
  entry "Triples" "Optional" [Byte.x00] (TypeIndex 0) (Some 3)
    [Some "Blake2_128Concat"; Some "Twox64Concat"; Some "Identity"].
Definition single : StorageEntry :=
  entry "Single" "Optional" [Byte.x00] (TypeIndex 0) (Some 0) [Some "Keccak256"].
Definition unhashed : StorageEntry :=
  entry "Unhashed" "Optional" [Byte.x00] (TypeIndex 0) (Some 1) [None].
Definition accounts : StorageEntry :=
  entry "Accounts" "Optional" [Byte.x00] (TypeIndex 0) (Some 1) [Some "Blake2_128Concat"].

End Sample.

(** ** The vocabulary of the properties *)

Section Vocabulary.
Context `{HashPrimitives}.

(** The first loop, from [self.param_scale_types]: how it ends and what it
    has appended by then. *)
Fixpoint encode_all (types : option (list ScaleTypeDef)) (idx : nat) (ps : list param)
  : result unit * list ScaleBytes :=
  match ps with
  | [] => (inr (), [])
  | p :: ps' =>
      match encode_param types idx p with
      | inl e => (inl e, [])
      | inr b => let r := encode_all types (S idx) ps' in (r.1, b :: r.2)
      end
  end.

(** The second loop, from [self.param_hashers]. *)
Fixpoint hash_all (hashers : option (list (option string))) (idx : nat)
    (encoded : list ScaleBytes) (storage_hash : bytes) : result bytes :=
  match encoded with
  | [] => inr storage_hash
  | p :: encoded' =>
      match hash_param hashers idx p with
      | inl e => inl e
      | inr segment => hash_all hashers (S idx) encoded' (storage_hash ++ segment)
      end
  end.

(** Two objects for the same address and the same metadata. *)
Definition same_address (s1 s2 : StorageKey) : Prop :=
  pallet s1 = pallet s2 ∧ storage_function s1 = storage_function s2 ∧
  params s1 = params s2 ∧ metadata s1 = metadata s2.

(** [w] only assigns attributes that [generate] does not read, the same
    values whatever the object, and [data] only together with a result. *)
Definition is_frame (r : result bytes) (w : StorageKey → StorageKey) : Prop :=
  (∀ s, same_address (w s) s) ∧
  (∀ s, w (w s) = w s) ∧
  (∀ s, data (w s) = match r with inl _ => data s | inr key => Some key end).

(** The hash kinds the chain of comparisons of [generate] knows. *)
Definition recognized (name : string) : Prop :=
  name ∈ ["Blake2_256"; "Blake2_128"; "Blake2_128Concat"; "Twox128"; "Twox64Concat";
          "Identity"].

(** The hash of the storage prefix followed by the hash of the name. *)
Definition key_prefix (r : resolution) : bytes :=
  xxh128 (str_encode (prefix (res_storage r))) ++ xxh128 (str_encode (res_name r)).

End Vocabulary.

(** ** The hasher transform table of the specification

    The specification gives the segment of a parameter by a table from
    the hash kind to its transform, the 128-bit dual-64 hash being the
    default for a slot without a declared kind.  The table is written
    here from the specification, by the names the metadata has for the
    hash kinds, to compare [generate] with it. *)

Section TransformTable.
Context `{HashPrimitives}.





End TransformTable.

(** The hash kinds that keep the bytes they hash. *)
Definition concatenating (h : option string) : Prop :=
  h = Some "Blake2_128Concat" ∨ h = Some "Twox64Concat" ∨ h = Some "Identity".

(** A parameter stands for the value [v] of type [T], encoded as [b]: it
    is [v] itself or it is [b], already encoded. *)
Definition denotes (T : ScaleTypeDef) (p : param) (v : value) (b : ScaleBytes) : Prop :=
  encode T v = Some b ∧ (p = Native v ∨ p = Encoded b).

(** One declared hash kind and one declared type for each parameter, the
    hash kinds all concatenating, the parameters standing for [vs]. *)
Inductive concat_slots :
  list (option string) → list ScaleTypeDef → list param → list value → list ScaleBytes → Prop :=
| slots_nil : concat_slots [] [] [] [] []
| slots_cons h T p v b hashers types ps vs bs :
    concatenating h → denotes T p v b →
    concat_slots hashers types ps vs bs →
    concat_slots (h :: hashers) (T :: types) (p :: ps) (v :: vs) (b :: bs).

(** The values of a decoded key tail: every second field of the tuple,
    after the raw block that is in front of it. *)
Fixpoint every_second (fields : list value) : list value :=
  match fields with
  | _ :: v :: rest => v :: every_second rest
  | _ => []
  end.

Definition key_values (decoded : ScaleType) : list value :=
  match scale_value decoded with
  | VTuple fields => every_second fields
  | _ => []
  end.

(** ** The vocabulary of the further properties *)

(** The length of the segment a recognized hash kind makes of [n] bytes. *)
Definition segment_length (param_hasher : string) (n : nat) : nat :=
  if decide (param_hasher = "Blake2_256") then 32
  else if decide (param_hasher = "Blake2_128") then 16
  else if decide (param_hasher = "Blake2_128Concat") then 16 + n
  else if decide (param_hasher = "Twox128") then 16
  else if decide (param_hasher = "Twox64Concat") then 8 + n
  else n.

(** Two objects for the same storage function and the same metadata, with
    parameters of their own. *)
Definition same_function (s1 s2 : StorageKey) : Prop :=
  pallet s1 = pallet s2 ∧ storage_function s1 = storage_function s2 ∧
  metadata s1 = metadata s2.

(** A decoded object without its [meta_info]. *)
Definition decoded_value (decoded : ScaleType) : ScaleTypeDef * value :=
  (scale_type_def decoded, scale_value decoded).

(** More sample data: a storage function that is not "Default" and whose
    default bytes hold a value, and a stand-in for [ss58_decode] of
    [scalecodec.utils.ss58], which gives the hexadecimal digits of the
    public key of an address. *)
Module FurtherSample.
Import Sample.

Definition stored : StorageEntry :=
  entry "Stored" "Optional" [Byte.x01; Byte.x2a] (TypeIndex 0) None [].

Definition stored_metadata : GenericMetadataVersioned :=
  {| pallets := [ {| pallet_name := "System";
                     storage := Some {| prefix := "System"; entries := [stored] |} |} ];
     portable_registry := registry |}.

Definition stored_address : StorageKey :=
  init (Some "System") (Some "Stored") None None None None stored_metadata config.

Definition sample_ss58_decode (address : string) (valid_ss58_format : nat) : result string :=
  if decide (address = EmptyString) then inl (ValueError "Empty address provided")
  else inr (hex (str_encode address)).

End FurtherSample.

(** * Properties *)

(** ** Byte strings and the codec *)

Lemma hex_pair_roundtrip (b : byte) :
  match hex_val (hex_digit (Byte.to_N b / 16)),
        hex_val (hex_digit (Byte.to_N b mod 16)) with
  | Some hi, Some lo => byte_of_N (16 * hi + lo) = b
  | _, _ => False
  end.
Proof. destruct b; vm_compute; reflexivity. Qed.

Lemma hex_digit_not_space (b : byte) :
  is_space (hex_digit (Byte.to_N b / 16)) = false.
Proof. destruct b; vm_compute; reflexivity. Qed.

Lemma fromhex_hex (data : bytes) : fromhex (hex data) = Some data.
Proof.
  induction data as [|b rest IH]; [reflexivity|].
  cbn [hex fromhex]. rewrite hex_digit_not_space.
  pose proof (hex_pair_roundtrip b) as Hb.
  destruct (hex_val (hex_digit (Byte.to_N b / 16))) as [hi|]; [|contradiction].
  destruct (hex_val (hex_digit (Byte.to_N b mod 16))) as [lo|]; [|contradiction].
  rewrite IH, Hb. reflexivity.
Qed.

Lemma hex_app (a b : bytes) : hex (a ++ b) = hex a +:+ hex b.
Proof. induction a as [|x a IH]; cbn; [reflexivity|]. by rewrite IH. Qed.

Lemma hex_length (a : bytes) : String.length (hex a) = 2 * length a.
Proof. induction a as [|x a IH]; cbn; [reflexivity|]. rewrite IH. lia. Qed.

Lemma str_drop_app (s t : string) : str_drop (String.length s) (s +:+ t) = t.
Proof. induction s as [|c s IH]; cbn; [by destruct t|]. exact IH. Qed.

(** What is left of the hexadecimal form of [a ++ b] after as many
    characters as the hexadecimal form of [a] has. *)
Lemma str_drop_hex_prefix (a b : bytes) :
  str_drop (String.length ("0x" +:+ hex a)) ("0x" +:+ hex (a ++ b)) = hex b.
Proof.
  change (str_drop (String.length (hex a)) (hex (a ++ b)) = hex b).
  by rewrite hex_app, str_drop_app.
Qed.

Lemma ScaleBytes_of_hex (raw : bytes) : ScaleBytes_of_str ("0x" +:+ hex raw) = inr raw.
Proof.
  change (or_raise (ValueError "non-hexadecimal number found in fromhex()")
            (fromhex (hex raw)) = inr raw).
  by rewrite fromhex_hex.
Qed.

Lemma to_hex_data (self : StorageKey) (key : bytes) :
  data self = Some key → 0 < length key → to_hex self = Some ("0x" +:+ hex key).
Proof. unfold to_hex. intros ->. by destruct key; [cbn; lia|]. Qed.

(** Induction on type definitions that also reaches the fields of a tuple. *)
Lemma ScaleTypeDef_nested_ind (P : ScaleTypeDef → Prop) :
  P U8 → P U16 → P U32 → P U64 → P Bool →
  (∀ T n, P T → P (Array T n)) →
  (∀ Ts, Forall P Ts → P (Tuple Ts)) →
  (∀ T, P T → P (Option T)) →
  ∀ T, P T.
Proof.
  intros H8 H16 H32 H64 Hb Harr Htup Hopt.
  fix IH 1. intros [| | | | |T n|Ts|T]; try assumption.
  - apply Harr, IH.
  - apply Htup. induction Ts as [|T Ts IHTs]; constructor; [apply IH | exact IHTs].
  - apply Hopt, IH.
Qed.

Lemma to_N_byte_of_N (n : N) : Byte.to_N (byte_of_N n) = (n mod 256)%N.
Proof.
  unfold byte_of_N. destruct (Byte.of_N (n mod 256)) as [b|] eqn:E.
  - by apply Byte.to_of_N.
  - apply Byte.of_N_None_iff in E.
    pose proof (N.mod_upper_bound n 256). lia.
Qed.

Lemma le_encode_length (w : nat) (n : N) : length (le_encode w n) = w.
Proof. revert n; induction w as [|w IH]; intros n; cbn; [done|]. by rewrite IH. Qed.

Lemma le_decode_encode (w : nat) (n : N) :
  (n < 256 ^ N.of_nat w)%N → le_decode (le_encode w n) = n.
Proof.
  revert n; induction w as [|w IH]; intros n Hn.
  - cbn in *. lia.
  - cbn [le_encode le_decode]. rewrite to_N_byte_of_N.
    rewrite IH.
    + pose proof (N.div_mod n 256). lia.
    + rewrite Nat2N.inj_succ, N.pow_succ_r' in Hn.
      apply N.Div0.div_lt_upper_bound; lia.
Qed.

Lemma uint_roundtrips (w : nat) : roundtrips (encode_uint w) (decode_uint w).
Proof.
  intros v b rest. destruct v as [n| | | | |]; cbn; try discriminate.
  destruct (n <? 256 ^ N.of_nat w)%N eqn:E; [|discriminate].
  intros [= <-]. apply N.ltb_lt in E.
  unfold decode_uint. rewrite decide_True.
  - rewrite take_app_length', drop_app_length' by (by rewrite le_encode_length).
    by rewrite le_decode_encode.
  - rewrite length_app, le_encode_length. lia.
Qed.

Lemma fields_roundtrip (encs : list encoder) (decs : list decoder) :
  Forall2 roundtrips encs decs →
  ∀ vs b rest, encode_fields encs vs = Some b →
               decode_fields decs (b ++ rest) = Some (vs, rest).
Proof.
  induction 1 as [|enc dec encs decs Hhd _ IH]; intros vs b rest.
  - destruct vs; cbn; [|discriminate]. by intros [= <-].
  - destruct vs as [|v vs]; cbn; [discriminate|].
    destruct (enc v) as [b1|] eqn:E1; [|discriminate].
    destruct (encode_fields encs vs) as [b2|] eqn:E2; [|discriminate].
    intros [= <-]. rewrite <- app_assoc.
    rewrite (Hhd _ _ _ E1), (IH _ _ _ E2). reflexivity.
Qed.

(** Decoding undoes encoding, whatever bytes follow. *)
Lemma decode_encode (T : ScaleTypeDef) : roundtrips (encode T) (decode T).
Proof.
  induction T as [| | | | |T n IH|Ts IH|T IH] using ScaleTypeDef_nested_ind;
    try apply uint_roundtrips.
  - intros [| [] | | | |] out rest; cbn; try discriminate; by intros [= <-].
  - intros v b rest. cbn. destruct (is_U8 T).
    + destruct v as [| |bs| | |]; try discriminate.
      destruct (decide (length bs = n)) as [<-|]; [|discriminate].
      intros [= <-]. rewrite decide_True by (rewrite length_app; lia).
      by rewrite take_app_length, drop_app_length.
    + destruct v as [| | |vs| |]; try discriminate.
      intros E. erewrite fields_roundtrip; [reflexivity| |exact E].
      clear E. induction n; constructor; done.
  - intros v b rest. destruct Ts as [|T Ts]; [by destruct v|].
    destruct v as [| | | |vs|]; try discriminate.
    intros E. change (encode_fields (map encode (T :: Ts)) vs = Some b) in E.
    change (match decode_fields (map decode (T :: Ts)) (b ++ rest) with
            | Some (vs0, rest0) => Some (VTuple vs0, rest0)
            | None => None
            end = Some (VTuple vs, rest)).
    erewrite fields_roundtrip; [reflexivity| |exact E].
    clear E. induction IH; constructor; done.
  - intros v b rest E.
    assert (∀ b', encode T v = Some b' → b = Byte.x01 :: b' →
                  decode (Option T) (b ++ rest) = Some (v, rest)) as Hsome.
    { intros b' E' ->. cbn. by apply IH. }
    cbn in E. destruct v; try (by intros; simplify_eq);
      try (destruct (encode T _) eqn:E'; [|discriminate];
           injection E as <-; by eapply Hsome).
Qed.

(** A tuple with element types decodes its fields one after the other. *)
Lemma decode_tuple_fields (items : list ScaleTypeDef) (data rest : bytes)
    (fields : list value) :
  items ≠ [] →
  decode_fields (map decode items) data = Some (fields, rest) →
  decode (Tuple items) data = Some (VTuple fields, rest).
Proof.
  destruct items as [|T items]; [done|]. intros _ E.
  change (match decode_fields (map decode (T :: items)) data with
          | Some (vs, rest0) => Some (VTuple vs, rest0)
          | None => None
          end = Some (VTuple fields, rest)).
  by rewrite E.
Qed.

(** ** The two loops of [generate] as functions of what they read *)

Section Loops.
Context `{HashPrimitives}.

Lemma set_params_encoded_twice (x y : list ScaleBytes) (self : StorageKey) :
  set_params_encoded x (set_params_encoded y self) = set_params_encoded x self.
Proof. reflexivity. Qed.

Lemma set_params_encoded_same (self : StorageKey) :
  set_params_encoded (params_encoded self) self = self.
Proof. by destruct self. Qed.

Lemma encode_params_eq (ps : list param) : ∀ idx self,
  encode_params idx ps self =
    ((encode_all (param_scale_types self) idx ps).1,
     set_params_encoded
       (params_encoded self ++ (encode_all (param_scale_types self) idx ps).2) self).
Proof.
  induction ps as [|p ps IH]; intros idx self; cbn.
  - by rewrite app_nil_r, set_params_encoded_same.
  - unfold mbind, method_bind, gets, lift, modify; cbn.
    destruct (encode_param (param_scale_types self) idx p) as [e|b]; cbn.
    + by rewrite app_nil_r, set_params_encoded_same.
    + rewrite IH. cbn. by rewrite <- app_assoc.
Qed.

Lemma hash_params_eq (encoded : list ScaleBytes) : ∀ idx storage_hash self,
  hash_params idx encoded storage_hash self =
    (hash_all (param_hashers self) idx encoded storage_hash, self).
Proof.
  induction encoded as [|p encoded IH]; intros idx storage_hash self; cbn; [done|].
  unfold mbind, method_bind, gets, lift; cbn.
  destruct (hash_param (param_hashers self) idx p) as [e|segment]; cbn; [done|].
  apply IH.
Qed.

(** When every parameter encodes, the first loop appends the encodings. *)
Lemma encode_all_ok types (ps : list param) : ∀ idx (bs : list ScaleBytes),
  imap (λ i, encode_param types (idx + i)) ps = inr <$> bs →
  encode_all types idx ps = (inr (), bs).
Proof.
  induction ps as [|p ps IH]; intros idx [|b bs]; cbn; try done.
  rewrite Nat.add_0_r. intros [= -> Hrest].
  rewrite (IH (S idx) bs); [done|].
  rewrite <- Hrest. apply imap_ext. intros i x _. cbn. f_equal. lia.
Qed.

(** When every parameter has a hash kind that is known, the second loop
    appends the segments in order. *)
Lemma hash_all_ok hashers (encoded : list ScaleBytes) : ∀ idx storage_hash (segs : list bytes),
  imap (λ i, hash_param hashers (idx + i)) encoded = inr <$> segs →
  hash_all hashers idx encoded storage_hash = inr (storage_hash ++ concat segs).
Proof.
  induction encoded as [|p encoded IH]; intros idx storage_hash [|seg segs]; cbn; try done.
  - intros _. by rewrite app_nil_r.
  - rewrite Nat.add_0_r. intros [= -> Hrest].
    rewrite (IH (S idx) _ segs); [by rewrite <- app_assoc|].
    rewrite <- Hrest. apply imap_ext. intros i x _. cbn. f_equal. lia.
Qed.

(** The second loop stops at the first parameter whose segment fails. *)
Lemma hash_all_fails hashers (done_ : list ScaleBytes) : ∀ idx storage_hash segs p rest e,
  imap (λ i, hash_param hashers (idx + i)) done_ = inr <$> segs →
  hash_param hashers (idx + length done_) p = inl e →
  hash_all hashers idx (done_ ++ p :: rest) storage_hash = inl e.
Proof.
  induction done_ as [|q done_ IH]; intros idx storage_hash [|seg segs] p rest e; cbn; try done.
  - rewrite Nat.add_0_r. by intros _ ->.
  - rewrite Nat.add_0_r. intros [= -> Hrest] Hp.
    apply (IH (S idx) _ segs).
    + rewrite <- Hrest. apply imap_ext. intros i x _. cbn. f_equal. lia.
    + rewrite <- Hp. f_equal. lia.
Qed.

(** The first loop ends well only when every parameter has encoded. *)
Lemma encode_all_inv types (ps : list param) : ∀ idx (bs : list ScaleBytes),
  encode_all types idx ps = (inr (), bs) →
  imap (λ i, encode_param types (idx + i)) ps = inr <$> bs.
Proof.
  induction ps as [|p ps IH]; intros idx bs; cbn.
  - by intros [= <-].
  - rewrite Nat.add_0_r.
    destruct (encode_param types idx p) as [e|b]; [discriminate|].
    destruct (encode_all types (S idx) ps) as [r bs'] eqn:E. cbn.
    intros [= -> <-]. cbn. f_equal.
    rewrite <- (IH (S idx) bs' E). apply imap_ext. intros i x _. unfold compose.
    by replace (idx + S i) with (S idx + i) by lia.
Qed.

(** The second loop ends with a key only when every parameter has got its
    segment, and the key is what it started from and then the segments. *)
Lemma hash_all_inv hashers (encoded : list ScaleBytes) : ∀ idx storage_hash key,
  hash_all hashers idx encoded storage_hash = inr key →
  ∃ segs, imap (λ i, hash_param hashers (idx + i)) encoded = inr <$> segs ∧
          key = storage_hash ++ concat segs.
Proof.
  induction encoded as [|p encoded IH]; intros idx storage_hash key; cbn.
  - intros [= <-]. exists []. by rewrite app_nil_r.
  - rewrite Nat.add_0_r.
    destruct (hash_param hashers idx p) as [e|segment]; [discriminate|].
    intros Hrest. destruct (IH (S idx) _ key Hrest) as (segs & Hsegs & ->).
    exists (segment :: segs). cbn. rewrite <- app_assoc. split; [|done]. f_equal.
    rewrite <- Hsegs. apply imap_ext. intros i x _. unfold compose.
    by replace (idx + S i) with (S idx + i) by lia.
Qed.

End Loops.

(** ** What [generate] reads and what it assigns *)

#[global] Arguments encode_params : simpl never.
#[global] Arguments hash_params : simpl never.
#[global] Arguments encode_all : simpl never.
#[global] Arguments hash_all : simpl never.

(** Unfolds the sequencing of a method down to the state it is run on. *)
Ltac run_method :=
  unfold mbind, method_bind, gets, modify, raise, lift, mret, method_ret; cbn.

(** Runs [generate] along the lookups recorded in the context. *)
Ltac run_generate :=
  unfold generate; run_method;
  repeat (first [ rewrite encode_params_eq | rewrite hash_params_eq
                | match goal with H : ?x = _ |- context [?x] => rewrite H end ];
          cbn).

Section GenerateFrame.
Context `{HashPrimitives}.

Ltac frame r w :=
  exists r, w; split;
  [ intros [] (?&?&?&?); simplify_eq/=; run_generate; reflexivity
  | repeat split; intros []; reflexivity ].

(** The outcome of [generate] is a function of the address and of the
    metadata, and so are the assignments it makes. *)
Lemma generate_frame (self : StorageKey) :
  ∃ r w, (∀ s, same_address s self → generate s = (r, w s)) ∧ is_frame r w.
Proof.
  destruct self as [p f ps pe d m rc vst pst ph msf].
  destruct (get_metadata_pallet m p) as [mp|] eqn:E1;
    [|frame (@inl exception bytes (pallet_not_found p)) (@id StorageKey)].
  destruct (get_storage_function mp f) as [fn|] eqn:E2;
    [|frame (@inl exception bytes (storage_function_not_found p f))
        (set_metadata_storage_function None)].
  destruct (resolve_value_scale_type (portable_registry m) fn) as [e|vt] eqn:E3;
    [frame (@inl exception bytes e) (set_metadata_storage_function (Some fn))|].
  destruct (resolve_param_scale_types (portable_registry m) fn) as [e|types] eqn:E4;
    [frame (@inl exception bytes e)
       (λ s, set_value_scale_type (Some (TypeDef vt))
               (set_metadata_storage_function (Some fn) s))|].
  pose (w4 := λ s, set_param_hashers (Some (get_param_hashers fn))
                     (set_param_scale_types (Some types)
                        (set_value_scale_type (Some (TypeDef vt))
                           (set_metadata_storage_function (Some fn) s)))).
  destruct (storage mp) as [st|] eqn:E5;
    [|frame (@inl exception bytes TypeError) w4].
  destruct f as [name|];
    [|frame (@inl exception bytes AttributeError) w4].
  pose (h := xxh128 (str_encode (prefix st)) ++ xxh128 (str_encode name)).
  destruct ps as [[|p0 ps]|];
    [frame (@inr exception bytes h) (λ s, set_data (Some h) (set_params_encoded [] (w4 s)))
    | |frame (@inr exception bytes h) (λ s, set_data (Some h) (set_params_encoded [] (w4 s)))].
  destruct (encode_all (Some types) 0 (p0 :: ps)) as [[e|[]] bs] eqn:E6;
    [frame (@inl exception bytes e) (λ s, set_params_encoded bs (w4 s))|].
  destruct (hash_all (Some (get_param_hashers fn)) 0 bs
              (xxh128 (str_encode (prefix st)) ++ xxh128 (str_encode name)))
    as [e|key] eqn:E7;
    [frame (@inl exception bytes e) (λ s, set_params_encoded bs (w4 s))
    |frame (@inr exception bytes key) (λ s, set_data (Some key) (set_params_encoded bs (w4 s)))].
Qed.

End GenerateFrame.

(** ** Generation on an address that resolves *)

Section Resolved.
Context `{HashPrimitives}.

(** On a resolved address with parameters that encode, [generate] is the
    second loop, and assigns [data] when the loop ends with a key. *)
Lemma generate_resolved (self : StorageKey) (r : resolution) (bs : list ScaleBytes) :
  resolves self r →
  imap (encode_param (Some (res_param_types r))) (supplied (params self)) = inr <$> bs →
  generate self =
    match hash_all (Some (get_param_hashers (res_function r))) 0 bs (key_prefix r) with
    | inl e => (inl e, resolved r bs self)
    | inr key => (inr key, set_data (Some key) (resolved r bs self))
    end.
Proof.
  destruct self as [p f ps pe d m rc vst pst ph msf], r as [mp st fn name vt types].
  unfold resolves, resolved, key_prefix; cbn.
  intros (E1 & E2 & -> & E3 & E4 & E5) Hps.
  apply (encode_all_ok _ _ 0) in Hps.
  destruct ps as [[|p0 ps]|]; cbn in Hps.
  - injection Hps as <-. run_generate. reflexivity.
  - run_generate. destruct hash_all; reflexivity.
  - injection Hps as <-. run_generate. reflexivity.
Qed.

(** The table of the hash kinds: each recognized name and its transform. *)
Lemma apply_hasher_table (input : bytes) :
  apply_hasher "Blake2_256" input = inr (blake2_256 input) ∧
  apply_hasher "Blake2_128" input = inr (blake2_128 input) ∧
  apply_hasher "Blake2_128Concat" input = inr (blake2_128_concat input) ∧
  apply_hasher "Twox128" input = inr (xxh128 input) ∧
  apply_hasher "Twox64Concat" input = inr (two_x64_concat input) ∧
  apply_hasher "Identity" input = inr (identity input).
Proof. unfold apply_hasher. repeat split; by repeat case_decide. Qed.

(** [generate] returns a key only on an address that resolves, with
    parameters that encode and hash kinds that give them their segments. *)
Lemma generate_inr (self : StorageKey) (key : bytes) :
  (generate self).1 = inr key →
  ∃ r bs segs,
    resolves self r ∧
    imap (encode_param (Some (res_param_types r))) (supplied (params self)) = inr <$> bs ∧
    imap (hash_param (Some (get_param_hashers (res_function r)))) bs = inr <$> segs ∧
    key = key_prefix r ++ concat segs.
Proof.
  destruct self as [p f ps pe d m rc vst pst ph msf].
  destruct (get_metadata_pallet m p) as [mp|] eqn:E1; [|run_generate; discriminate].
  destruct (get_storage_function mp f) as [fn|] eqn:E2; [|run_generate; discriminate].
  destruct (resolve_value_scale_type (portable_registry m) fn) as [e|vt] eqn:E3;
    [run_generate; discriminate|].
  destruct (resolve_param_scale_types (portable_registry m) fn) as [e|types] eqn:E4;
    [run_generate; discriminate|].
  destruct (storage mp) as [st|] eqn:E5; [|run_generate; discriminate].
  destruct f as [name|]; [|run_generate; discriminate].
  pose (r := {| res_pallet := mp; res_storage := st; res_function := fn;
                res_name := name; res_value_type := vt; res_param_types := types |}).
  assert (resolves {| pallet := p; storage_function := Some name; params := ps;
                      params_encoded := pe; data := d; metadata := m;
                      runtime_config := rc; value_scale_type := vst;
                      param_scale_types := pst; param_hashers := ph;
                      metadata_storage_function := msf |} r) as Hres.
  { by repeat split. }
  destruct (encode_all (Some types) 0 (supplied ps)) as [[e|[]] bs] eqn:E6.
  - destruct ps as [[|p0 ps]|]; cbn in E6; try discriminate.
    run_generate. discriminate.
  - pose proof (encode_all_inv _ _ 0 _ E6) as Hps. cbn in Hps.
    rewrite (generate_resolved _ r bs Hres Hps).
    destruct (hash_all (Some (get_param_hashers fn)) 0 bs (key_prefix r)) as [e|key']
      eqn:E7; cbn in E7 |- *; rewrite E7; [discriminate|].
    intros [= <-]. destruct (hash_all_inv _ _ 0 _ _ E7) as (segs & Hsegs & ->).
    by exists r, bs, segs.
Qed.

Context `{!HashLengths}.

Lemma key_prefix_length (r : resolution) : length (key_prefix r) = 32.
Proof. unfold key_prefix. by rewrite length_app, !xxh128_length. Qed.

End Resolved.

(** ** Key generation *)

Section AgainstTheTable.
Context `{HashPrimitives}.



End AgainstTheTable.


Section GenerateOutcomes.
Context `{HashPrimitives}.

Lemma same_address_refl (s : StorageKey) : same_address s s.
Proof. by repeat split. Qed.

Lemma same_address_trans (s1 s2 s3 : StorageKey) :
  same_address s1 s2 → same_address s2 s3 → same_address s1 s3.
Proof. unfold same_address. intros (-> & -> & -> & ->). done. Qed.

Lemma apply_hasher_unknown (name : string) (input : bytes) :
  ¬ recognized name → apply_hasher name input = inl (unknown_storage_hasher name).
Proof.
  unfold apply_hasher, recognized. intros Hnot.
  repeat case_decide; try reflexivity; exfalso; apply Hnot; subst;
    repeat first [apply list_elem_of_here | apply list_elem_of_further].
Qed.

Lemma apply_hasher_inl (name : string) (input : bytes) (e : exception) :
  apply_hasher name input = inl e → e = unknown_storage_hasher name ∧ ¬ recognized name.
Proof.
  unfold apply_hasher, recognized. repeat case_decide; try discriminate.
  intros [= <-]. split; [done|]. intros Hin.
  repeat (apply elem_of_cons in Hin as [?|Hin]; [done|]).
  by apply elem_of_nil in Hin.
Qed.

Lemma apply_hasher_recognized (name : string) (input : bytes) :
  recognized name → ∃ segment, apply_hasher name input = inr segment.
Proof.
  intros Hname. destruct (apply_hasher name input) as [e|segment] eqn:E; [|by eexists].
  by apply apply_hasher_inl in E as [_ ?].
Qed.

Lemma apply_hasher_twox128 (input : bytes) :
  apply_hasher "Twox128" input = inr (xxh128 input).
Proof. unfold apply_hasher. by repeat case_decide. Qed.

Lemma default_hasher_declared (name : string) :
  name ≠ EmptyString → default_hasher (Some name) = name.
Proof. by destruct name. Qed.

(** With a declared hash kind that is not recognized among those of the
    parameters, the second loop ends with the error for the first such:
    the hash kinds before it are recognized, or left empty. *)
Lemma hash_all_unknown hashers (encoded : list ScaleBytes) :
  ∀ idx storage_hash i name,
    i < length encoded →
    hashers !! (idx + i) = Some (Some name) → name ≠ EmptyString → ¬ recognized name →
    ∃ j first,
      j ≤ i ∧ hashers !! (idx + j) = Some (Some first) ∧
      first ≠ EmptyString ∧ ¬ recognized first ∧
      (∀ k kind, k < j → hashers !! (idx + k) = Some (Some kind) →
                 kind ≠ EmptyString → recognized kind) ∧
      hash_all (Some hashers) idx encoded storage_hash
        = inl (unknown_storage_hasher first).
Proof.
  induction encoded as [|p encoded IH]; intros idx storage_hash i name Hi Hlook Hname Hnot;
    [cbn in Hi; lia|].
  unfold hash_all; fold hash_all. unfold hash_param at 1. cbn.
  destruct (hashers !! idx) as [h|] eqn:Eh; cbn.
  - destruct (apply_hasher (default_hasher h) p) as [e|segment] eqn:Ea.
    + apply apply_hasher_inl in Ea as [-> Hfirst].
      destruct h as [[|a first]|];
        try solve [exfalso; apply Hfirst; cbn;
                   repeat first [apply list_elem_of_here | apply list_elem_of_further]].
      exists 0, (String a first). rewrite Nat.add_0_r.
      split_and!; try done; [lia|]. intros k kind Hk. lia.
    + destruct i as [|i].
      * rewrite Nat.add_0_r, Eh in Hlook. injection Hlook as ->.
        rewrite default_hasher_declared in Ea by done.
        by rewrite apply_hasher_unknown in Ea.
      * destruct (IH (S idx) (storage_hash ++ segment) i name)
          as (j & first & Hj & Hlook' & Hne & Hnot' & Hbefore & Hfail);
          [cbn in Hi; lia| |done|done|].
        { by replace (S idx + i) with (idx + S i) by lia. }
        exists (S j), first.
        replace (idx + S j) with (S idx + j) by lia.
        split_and!; try done; [lia|].
        intros [|k] kind Hk Hkind Hkne.
        -- rewrite Nat.add_0_r, Eh in Hkind. injection Hkind as ->.
           rewrite default_hasher_declared in Ea by done.
           destruct (decide (recognized kind)) as [|Hno]; [done|].
           by rewrite apply_hasher_unknown in Ea.
        -- apply (Hbefore k kind); [lia| |done].
           by replace (S idx + k) with (idx + S k) by lia.
  - apply lookup_ge_None in Eh. apply lookup_lt_Some in Hlook. lia.
Qed.

(** As long as the hash kinds are recognized, the segments are there. *)
Lemma hash_params_known hashers (encoded : list ScaleBytes) : ∀ idx,
  idx + length encoded ≤ length hashers →
  Forall (λ h, recognized (default_hasher h)) hashers →
  ∃ segs, imap (λ i, hash_param (Some hashers) (idx + i)) encoded = inr <$> segs.
Proof.
  induction encoded as [|p encoded IH]; intros idx Hlen Hall; [by exists []|].
  cbn in Hlen. destruct (IH (S idx)) as [segs Hsegs]; [lia|done|].
  destruct (lookup_lt_is_Some_2 hashers idx) as [h Eh]; [lia|].
  destruct (apply_hasher_recognized (default_hasher h) p) as [segment Es].
  { exact (Forall_lookup_1 _ hashers idx h Hall Eh). }
  exists (segment :: segs). cbn. rewrite Nat.add_0_r. f_equal.
  - unfold hash_param. cbn. rewrite Eh. cbn. exact Es.
  - rewrite <- Hsegs. apply imap_ext. intros i x _. unfold compose.
    by replace (idx + S i) with (S idx + i) by lia.
Qed.

Lemma generate_pallet_not_found (self : StorageKey) :
  get_metadata_pallet (metadata self) (pallet self) = None →
  generate self = (inl (pallet_not_found (pallet self)), self).
Proof. destruct self. cbn. intros E. run_generate. reflexivity. Qed.

End GenerateOutcomes.

(** C5: [generate] is a function of the address and of the metadata: two
    objects for the same address and metadata get the same outcome, the
    same key bytes when there is a key, and a second call on the object
    repeats the outcome of the first and leaves the object as it is. *)
Theorem generate_deterministic_idempotent `{HashPrimitives} (s1 s2 : StorageKey) :
  same_address s1 s2 →
  (generate s1).1 = (generate s2).1 ∧
  generate (generate s1).2 = generate s1 ∧
  (∀ key, (generate s1).1 = inr key →
          data (generate s1).2 = Some key ∧ data (generate s2).2 = Some key).
Proof.
  intros Hs. destruct (generate_frame s2) as (r & w & Hrun & Haddr & Hidem & Hdata).
  rewrite (Hrun s1 Hs), (Hrun s2 (same_address_refl s2)). cbn.
  split; [done|]. split.
  - rewrite (Hrun (w s1)); [by rewrite Hidem|].
    eapply same_address_trans; [apply Haddr|exact Hs].
  - intros key ->. by rewrite !Hdata.
Qed.

(** C8, amended: when [generate] fails, whatever the error, the key bytes
    of the object are what they were and so is its address; when it is the
    pallet that is not found, the object is left as it was. *)
Theorem generate_failure_keeps_data `{HashPrimitives} (self : StorageKey) (e : exception) :
  (generate self).1 = inl e →
  data (generate self).2 = data self ∧
  same_address (generate self).2 self ∧
  (get_metadata_pallet (metadata self) (pallet self) = None → (generate self).2 = self).
Proof.
  destruct (generate_frame self) as (r & w & Hrun & Haddr & Hidem & Hdata).
  rewrite (Hrun self (same_address_refl self)). cbn. intros ->.
  split; [apply Hdata|]. split; [apply Haddr|].
  intros Hnone. pose proof (generate_pallet_not_found self Hnone) as E.
  rewrite (Hrun self (same_address_refl self)) in E. by injection E.
Qed.

(** C6, amended: for an address that resolves and parameters that all
    encode, when one of the parameters has a declared hash kind outside
    the recognized ones, [generate] fails with the error of an unknown
    storage hasher for the first such parameter, the declared hash kinds
    of the parameters before it being recognized or left empty, and the
    key bytes of the object are what they were. *)
Theorem generate_unknown_hasher `{HashPrimitives}
    (self : StorageKey) (r : resolution) (bs : list ScaleBytes) (i : nat) (name : string) :
  resolves self r →
  imap (encode_param (Some (res_param_types r))) (supplied (params self)) = inr <$> bs →
  i < length (supplied (params self)) →
  get_param_hashers (res_function r) !! i = Some (Some name) →
  name ≠ EmptyString →
  ¬ recognized name →
  ∃ j first,
    j ≤ i ∧
    get_param_hashers (res_function r) !! j = Some (Some first) ∧
    first ≠ EmptyString ∧ ¬ recognized first ∧
    (∀ k kind, k < j → get_param_hashers (res_function r) !! k = Some (Some kind) →
               kind ≠ EmptyString → recognized kind) ∧
    (generate self).1 = inl (unknown_storage_hasher first) ∧
    data (generate self).2 = data self.
Proof.
  intros Hres Hps Hi Hlook Hname Hnot.
  assert (length bs = length (supplied (params self))) as Hlen.
  { apply (f_equal length) in Hps. by rewrite length_imap, length_fmap in Hps. }
  destruct (hash_all_unknown (get_param_hashers (res_function r)) bs 0 (key_prefix r) i name)
    as (j & first & Hj & Hlook' & Hne & Hnot' & Hbefore & Hfail); [lia|done|done|done|].
  exists j, first. rewrite (generate_resolved self r bs Hres Hps), Hfail.
  split_and!; try done; by destruct self.
Qed.

(** C7, amended: for an address that resolves and parameters that all
    encode, when there are more parameters than declared hash kinds and
    the declared ones are recognized, [generate] fails with the error of
    no hasher found for the first parameter without one; and a parameter
    whose entry is [None] or empty gets the Twox128 transform, [generate]
    returning the key with that segment. *)
Theorem generate_missing_or_default_hasher `{HashPrimitives}
    (self : StorageKey) (r : resolution) (bs : list ScaleBytes) :
  resolves self r →
  imap (encode_param (Some (res_param_types r))) (supplied (params self)) = inr <$> bs →
  let hashers := get_param_hashers (res_function r) in
  (length hashers < length (supplied (params self)) →
   Forall (λ h, recognized (default_hasher h)) hashers →
   (generate self).1 = inl (no_hasher_found (length hashers)) ∧
   data (generate self).2 = data self) ∧
  (∀ i h b segs,
     imap (hash_param (Some hashers)) bs = inr <$> segs →
     hashers !! i = Some h → truthy_str h = false → bs !! i = Some b →
     segs !! i = Some (xxh128 b) ∧
     (generate self).1 = inr (key_prefix r ++ concat segs)).
Proof.
  intros Hres Hps hashers.
  assert (length bs = length (supplied (params self))) as Hlen.
  { apply (f_equal length) in Hps. by rewrite length_imap, length_fmap in Hps. }
  rewrite (generate_resolved self r bs Hres Hps). fold hashers. split.
  - intros Hshort Hall.
    destruct (lookup_lt_is_Some_2 bs (length hashers)) as [b Eb]; [lia|].
    rewrite <- (take_drop_middle bs (length hashers) b Eb).
    destruct (hash_params_known hashers (take (length hashers) bs) 0) as [segs Hsegs];
      [rewrite length_take; cbn; lia|done|].
    erewrite hash_all_fails; [by destruct self|exact Hsegs|].
    cbn. rewrite length_take, Nat.min_l by lia.
    unfold hash_param. cbn. by rewrite lookup_ge_None_2.
  - intros i h b segs Hsegs Eh Hfalsy Eb.
    rewrite (hash_all_ok _ _ 0 _ segs Hsegs). split; [|done].
    apply (f_equal (λ l, l !! i)) in Hsegs.
    rewrite list_lookup_imap, Eb, list_lookup_fmap in Hsegs. cbn in Hsegs.
    unfold hash_param, default_hasher in Hsegs. cbn in Hsegs.
    rewrite Eh in Hsegs. cbn in Hsegs. rewrite Hfalsy, apply_hasher_twox128 in Hsegs.
    destruct (segs !! i); by simplify_eq/=.
Qed.

(** ** Value decoding *)

(** C1, amended: for a storage function with the modifier "Default", with
    no raw bytes [decode_scale_value] decodes the declared default bytes
    as the value type, and [result_found] is false: the flag is true only
    for raw bytes that were given. *)
Theorem decode_default_value (self : StorageKey) (function : StorageEntry)
    (T : ScaleTypeDef) (v : value) :
  metadata_storage_function self = Some function →
  modifier function = "Default" →
  value_scale_type self = Some (TypeDef T) →
  decode T (default_bytes function) = Some (v, []) →
  decode_scale_value self None =
    inr {| scale_type_def := T; scale_value := v; meta_info := Some false |} ∧
  (∀ raw v', decode T raw = Some (v', []) →
             decode_scale_value self (Some (inl raw)) =
               inr {| scale_type_def := T; scale_value := v'; meta_info := Some true |}).
Proof.
  intros Hf Hmod HT Hdec. unfold decode_scale_value. cbn. split.
  - rewrite Hf. cbn. rewrite decide_True by done. cbn.
    rewrite HT. cbn. unfold decode_new. by rewrite Hdec.
  - intros raw v' Hraw. rewrite HT. cbn. unfold decode_new. by rewrite Hraw.
Qed.

(** C4: for a storage function whose modifier is not "Default" (it is
    "Optional"), with no raw bytes [decode_scale_value] decodes the
    declared default bytes as an option of the value type, and
    [result_found] is false; with the default bytes 0x00 the value is
    [None]. *)
Theorem decode_optional_value (self : StorageKey) (function : StorageEntry)
    (T : ScaleTypeDef) :
  metadata_storage_function self = Some function →
  modifier function ≠ "Default" →
  value_scale_type self = Some (TypeDef T) →
  (∀ v, decode (Option T) (default_bytes function) = Some (v, []) →
        decode_scale_value self None =
          inr {| scale_type_def := Option T; scale_value := v; meta_info := Some false |}) ∧
  (default_bytes function = [Byte.x00] →
   decode_scale_value self None =
     inr {| scale_type_def := Option T; scale_value := VNone; meta_info := Some false |}).
Proof.
  intros Hf Hmod HT.
  assert (∀ v, decode (Option T) (default_bytes function) = Some (v, []) →
               decode_scale_value self None =
                 inr {| scale_type_def := Option T; scale_value := v;
                        meta_info := Some false |}) as Hgen.
  { intros v Hdec. unfold decode_scale_value. cbn.
    rewrite Hf. cbn. rewrite decide_False by done. cbn.
    rewrite HT. cbn. unfold decode_new. by rewrite Hdec. }
  split; [exact Hgen|].
  intros Hzero. apply Hgen. by rewrite Hzero.
Qed.

(** ** Construction from raw key bytes *)

(** C9, amended: [create_from_data] makes no lookup in the metadata, and
    cannot fail, when a value type is given or the pallet or the storage
    function is not; with no value type and both names, it looks the
    storage function up at once, fails when the pallet or the function is
    not there, and otherwise keeps the type string of the function. *)
Theorem create_from_data_resolution (raw : bytes) (runtime_config : RuntimeConfigurationObject)
    (metadata : GenericMetadataVersioned) (value_scale_type pallet storage_function : option string) :
  (truthy_str value_scale_type = true ∨ truthy_str pallet = false ∨
   truthy_str storage_function = false →
   create_from_data raw runtime_config metadata value_scale_type pallet storage_function =
     inr (init pallet storage_function None (Some raw)
            (TypeString <$> value_scale_type) None metadata runtime_config)) ∧
  (truthy_str value_scale_type = false → truthy_str pallet = true →
   truthy_str storage_function = true →
   create_from_data raw runtime_config metadata value_scale_type pallet storage_function =
     match get_metadata_pallet metadata pallet with
     | None => inl (pallet_not_found pallet)
     | Some metadata_pallet =>
         match get_storage_function metadata_pallet storage_function with
         | None => inl (storage_function_not_found pallet storage_function)
         | Some storage_item =>
             inr (init pallet storage_function None (Some raw)
                    (Some (TypeString (get_value_type_string storage_item)))
                    None metadata runtime_config)
         end
     end).
Proof.
  unfold create_from_data. split.
  - intros Hskip.
    assert (negb (truthy_str value_scale_type) && truthy_str pallet
              && truthy_str storage_function = false) as ->; [|done].
    destruct Hskip as [-> | [-> | ->]]; cbn; [done| |];
      repeat (destruct (truthy_str _); cbn); done.
  - intros -> -> ->. cbn.
    destruct (get_metadata_pallet metadata pallet) as [metadata_pallet|]; [|done]. cbn.
    destruct (get_storage_function metadata_pallet storage_function); done.
Qed.

(** ** The textual representation *)

(** C10: on an object without both a pallet and a storage function and
    without key bytes, [__repr__] calls itself on the same object and does
    not return, however deep the calls may go; on any other object it
    returns a string at once. *)
Theorem repr_diverges_or_returns (repr_params : option (list param) → string)
    (self : StorageKey) :
  let symbolic := truthy_str (pallet self) && truthy_str (storage_function self) in
  (symbolic = false → truthy_bytes (data self) = false →
   ∀ fuel, repr repr_params fuel self = None) ∧
  (symbolic = true ∨ truthy_bytes (data self) = true →
   ∀ fuel, ∃ s, repr repr_params (S fuel) self = Some s).
Proof.
  intros symbolic. subst symbolic. split.
  - intros Hsym Hdata fuel. induction fuel as [|fuel IH]; [done|].
    cbn. by rewrite Hsym, Hdata.
  - intros Hor fuel. cbn.
    destruct (truthy_str (pallet self) && truthy_str (storage_function self));
      [by eexists|].
    destruct Hor as [Hsym|Hdata]; [done|]. rewrite Hdata. by eexists.
Qed.

(** ** Decoding the tail of a key *)

Section KeyTail.
Context `{HashPrimitives} `{!HashLengths} `{!ConcatLaws}.

(** A concatenating hash kind puts a digest in front of the bytes, as long
    as the block [concat_hash_len] gives for it. *)
Lemma concat_segment (h : option string) (b : bytes) :
  concatenating h →
  ∃ digest, apply_hasher (default_hasher h) ([] ++ b) = inr (digest ++ b) ∧
            concat_hash_len h = inr (length digest).
Proof.
  intros [-> | [-> | ->]].
  - exists (take 16 (blake2_128_concat b)). split.
    + rewrite <- (blake2_128_concat_input b) at 3. rewrite take_drop.
      unfold apply_hasher. by repeat case_decide.
    + rewrite length_take, blake2_128_concat_length, Nat.min_l by lia.
      apply concat_len_blake2_128.
  - exists (take 8 (two_x64_concat b)). split.
    + rewrite <- (two_x64_concat_input b) at 3. rewrite take_drop.
      unfold apply_hasher. by repeat case_decide.
    + rewrite length_take, two_x64_concat_length, Nat.min_l by lia.
      apply concat_len_twox64.
  - exists []. split.
    + cbn. rewrite <- (identity_input b) at 2.
      unfold apply_hasher. by repeat case_decide.
    + apply concat_len_identity.
Qed.

Lemma concat_slots_encode hashers types ps vs bs :
  concat_slots hashers types ps vs bs →
  ∀ before, imap (λ i, encode_param (Some (before ++ types)) (length before + i)) ps
            = inr <$> bs.
Proof.
  induction 1 as [|h T p v b hashers types ps vs bs _ [Henc Hp] _ IH]; intros before;
    [done|].
  cbn. f_equal.
  - rewrite Nat.add_0_r. destruct Hp as [-> | ->]; [|done].
    cbn. rewrite list_lookup_middle by done. cbn. by rewrite Henc.
  - rewrite cons_middle, app_assoc. rewrite <- (IH (before ++ [T])).
    apply imap_ext. intros i x _. unfold compose. f_equal.
    rewrite length_app. cbn. lia.
Qed.

(** Along the slots: the segments of the key, the fields of the key type,
    and the decoding of the ones by the others. *)
Lemma concat_slots_tail hashers types ps vs bs :
  concat_slots hashers types ps vs bs →
  ∀ hashers_before types_before self,
    length hashers_before = length types_before →
    param_hashers self = Some (hashers_before ++ hashers) →
    ∃ segs items fields,
      imap (λ i, hash_param (Some (hashers_before ++ hashers)) (length hashers_before + i)) bs
        = inr <$> segs ∧
      key_items self (types_before ++ types) (seq (length types_before) (length types))
        = inr items ∧
      (∀ rest, decode_fields (map decode items) (concat segs ++ rest) = Some (fields, rest)) ∧
      every_second fields = vs ∧
      (items = [] → ps = []).
Proof.
  induction 1 as [|h T p v b hashers types ps vs bs Hh [Henc _] _ IH];
    intros hashers_before types_before self Hlen Hself.
  { exists [], [], []. by repeat split. }
  destruct (concat_segment h b Hh) as (digest & Hseg & Hblock).
  destruct (IH (hashers_before ++ [h]) (types_before ++ [T]) self)
    as (segs & items & fields & Hsegs & Hitems & Hdec & Hvals & _).
  { rewrite !length_app. cbn. lia. }
  { by rewrite <- app_assoc. }
  exists ((digest ++ b) :: segs), (Array U8 (length digest) :: T :: items),
         (VBytes digest :: v :: fields).
  repeat split.
  - cbn. f_equal.
    + rewrite Nat.add_0_r. unfold hash_param. cbn.
      rewrite list_lookup_middle by done. cbn. exact Hseg.
    + rewrite <- app_assoc in Hsegs. cbn in Hsegs. rewrite <- Hsegs.
      apply imap_ext. intros i x _. unfold compose. f_equal.
      rewrite length_app. cbn. lia.
  - cbn. rewrite Hself. cbn.
    rewrite (list_lookup_middle types_before types T) by done.
    rewrite (list_lookup_middle hashers_before hashers h) by done. cbn.
    rewrite Hblock. cbn.
    rewrite <- app_assoc in Hitems. cbn in Hitems.
    rewrite length_app in Hitems. cbn in Hitems.
    rewrite Nat.add_1_r in Hitems. by rewrite Hitems.
  - intros rest. cbn.
    rewrite <- !app_assoc.
    rewrite decide_True by (rewrite length_app; lia).
    rewrite take_app_length, drop_app_length.
    rewrite (decode_encode T v b _ Henc).
    by rewrite Hdec.
  - cbn. by rewrite Hvals.
  - discriminate.
Qed.

End KeyTail.


(** * The theorems on the sample runtime *)

Module Examples.
Import Sample.

(** The stand-ins have the lengths of the transforms they stand for, and
    the concatenating ones end with their input. *)
Lemma sample_lengths : HashLengths.
Proof.
  split; intros; cbn; rewrite ?length_app; unfold sample_digest;
    rewrite ?le_encode_length; reflexivity.
Qed.

Lemma sample_concat_laws : ConcatLaws.
Proof.
  split; intros; cbn; try reflexivity;
    apply drop_app_length'; apply le_encode_length.
Qed.

#[export] Existing Instance sample_lengths.
#[export] Existing Instance sample_concat_laws.

Lemma keccak_not_recognized : ¬ recognized "Keccak256".
Proof.
  intros Hin. repeat (apply elem_of_cons in Hin as [Heq|Hin]; [discriminate|]).
  by apply elem_of_nil in Hin.
Defined.

(** C1 as stated fails: the storage function [Counter] has the modifier
    "Default" and the default bytes 0x2a of an 8-bit unsigned integer;
    with no raw bytes the value is 42 and [result_found] is false. *)
Lemma decode_default_value_not_found :
  let self := (generate (address "Counter" None)).2 in
  metadata_storage_function self = Some counter ∧
  modifier counter = "Default" ∧
  default_bytes counter = [Byte.x2a] ∧
  ∃ decoded, decode_scale_value self None = inr decoded ∧
             scale_value decoded = VInt 42 ∧
             meta_info decoded = Some false ∧
             meta_info decoded ≠ Some true.
Proof.
  cbv zeta. repeat split.
  eexists. split; [vm_compute; reflexivity|]. by repeat split.
Qed.

Lemma decode_default_value_witness :
  decode_scale_value (generate (address "Counter" None)).2 None =
    inr {| scale_type_def := U8; scale_value := VInt 42; meta_info := Some false |} ∧
  decode_scale_value (generate (address "Counter" None)).2 (Some (inl [Byte.x07])) =
    inr {| scale_type_def := U8; scale_value := VInt 7; meta_info := Some true |}.
Proof.
  destruct (decode_default_value (generate (address "Counter" None)).2 counter U8 (VInt 42))
    as [Habsent Hgiven]; try reflexivity.
  split; [exact Habsent|]. apply Hgiven. reflexivity.
Defined.

Lemma decode_optional_value_witness :
  decode_scale_value (generate (address "Maybe" None)).2 None =
    inr {| scale_type_def := Option U8; scale_value := VNone; meta_info := Some false |}.
Proof.
  apply (decode_optional_value (generate (address "Maybe" None)).2 maybe U8);
    [reflexivity|discriminate|reflexivity|reflexivity].
Defined.




(** Two objects for one address, one of them with key bytes from before. *)
Lemma generate_deterministic_idempotent_witness :
  let s1 := address "Pairs" (Some [Native (VInt 1); Native (VInt 513)]) in
  let s2 := set_data (Some [Byte.xff]) s1 in
  (generate s1).1 = (generate s2).1 ∧
  generate (generate s1).2 = generate s1 ∧
  (∀ key, (generate s1).1 = inr key →
          data (generate s1).2 = Some key ∧ data (generate s2).2 = Some key).
Proof.
  intros s1 s2. apply (generate_deterministic_idempotent s1 s2).
  repeat split; reflexivity.
Defined.

(** C6 as stated fails: the only declared hash kind of [Single] is not a
    recognized one, and with a second parameter, for which no type is
    declared, [generate] ends in the first loop with an [IndexError]. *)
Lemma generate_unknown_hasher_preempted :
  let self := address "Single" (Some [Native (VInt 1); Native (VInt 2)]) in
  get_param_hashers single !! 0 = Some (Some "Keccak256") ∧
  ¬ recognized "Keccak256" ∧
  (generate self).1 = inl IndexError ∧
  ∀ name, (generate self).1 ≠ inl (unknown_storage_hasher name).
Proof.
  cbv zeta. split; [reflexivity|]. split; [exact keccak_not_recognized|].
  assert ((generate (address "Single" (Some [Native (VInt 1); Native (VInt 2)]))).1
          = inl IndexError) as -> by (vm_compute; reflexivity).
  split; [reflexivity|]. intros name. discriminate.
Qed.

Lemma generate_unknown_hasher_witness :
  let self := address "Single" (Some [Native (VInt 7)]) in
  (generate self).1 = inl (unknown_storage_hasher "Keccak256") ∧
  data (generate self).2 = data self.
Proof.
  intros self.
  destruct (generate_unknown_hasher self (declared single [U8]) [[Byte.x07]] 0 "Keccak256")
    as (j & first & Hj & Hlook & _ & _ & _ & Hfail & Hdata).
  - repeat split; reflexivity.
  - reflexivity.
  - cbn. lia.
  - reflexivity.
  - discriminate.
  - exact keccak_not_recognized.
  - assert (j = 0) as -> by lia. cbn in Hlook. injection Hlook as <-.
    split; [exact Hfail|exact Hdata].
Defined.

(** C7 as stated fails: [Accounts] declares one parameter and one hash
    kind; with two native parameters the second has no entry among the
    hash kinds, and [generate] ends in the first loop with an
    [IndexError], not with the error of no hasher found. *)
Lemma generate_missing_hasher_preempted :
  let self := address "Accounts" (Some [Native (VInt 1); Native (VInt 2)]) in
  get_param_hashers accounts !! 1 = None ∧
  (generate self).1 = inl IndexError ∧
  ∀ idx, (generate self).1 ≠ inl (no_hasher_found idx).
Proof.
  cbv zeta. split; [reflexivity|].
  assert ((generate (address "Accounts" (Some [Native (VInt 1); Native (VInt 2)]))).1
          = inl IndexError) as -> by (vm_compute; reflexivity).
  split; [reflexivity|]. intros idx. discriminate.
Qed.

(** [Unhashed] declares one hash kind, left empty: a second parameter has
    none, and the first one gets the Twox128 transform. *)
Lemma generate_missing_or_default_hasher_witness :
  let two := address "Unhashed" (Some [Encoded [Byte.x01; Byte.x00]; Encoded [Byte.x02]]) in
  let one := address "Unhashed" (Some [Native (VInt 1)]) in
  ((generate two).1 = inl (no_hasher_found 1) ∧ data (generate two).2 = data two) ∧
  (generate one).1 =
    inr (key_prefix (declared unhashed [U16]) ++ concat [xxh128 [Byte.x01; Byte.x00]]).
Proof.
  intros two one. split.
  - apply (generate_missing_or_default_hasher two (declared unhashed [U16])
             [[Byte.x01; Byte.x00]; [Byte.x02]]).
    + repeat split; reflexivity.
    + reflexivity.
    + cbn. lia.
    + repeat constructor.
  - apply (generate_missing_or_default_hasher one (declared unhashed [U16])
             [[Byte.x01; Byte.x00]]) with (i := 0) (h := None) (b := [Byte.x01; Byte.x00]).
    + repeat split; reflexivity.
    + reflexivity.
    + reflexivity.
    + reflexivity.
    + reflexivity.
    + reflexivity.
Defined.

(** C8 as stated fails: [generate] fails on the unknown hash kind of
    [Single] after it has assigned the hash kinds, the types and the
    encoded parameters to the object. *)
Lemma generate_failure_changes_fields :
  let self := address "Single" (Some [Encoded [Byte.x01]]) in
  (generate self).1 = inl (unknown_storage_hasher "Keccak256") ∧
  param_hashers self = None ∧
  param_hashers (generate self).2 = Some [Some "Keccak256"] ∧
  params_encoded self = [] ∧
  params_encoded (generate self).2 = [[Byte.x01]] ∧
  (generate self).2 ≠ self.
Proof.
  cbv zeta. repeat split; try (vm_compute; reflexivity).
  intros Heq. apply (f_equal param_hashers) in Heq. vm_compute in Heq. discriminate.
Qed.

Lemma generate_failure_keeps_data_witness :
  let self := set_data (Some [Byte.xff]) (address "Single" (Some [Encoded [Byte.x01]])) in
  data (generate self).2 = Some [Byte.xff] ∧ same_address (generate self).2 self.
Proof.
  intros self.
  destruct (generate_failure_keeps_data self (unknown_storage_hasher "Keccak256"))
    as (Hdata & Haddr & _).
  - vm_compute. reflexivity.
  - split; [exact Hdata|exact Haddr].
Defined.

(** C9 as stated fails: without a value type and with both names,
    [create_from_data] looks the storage function up, and raises when the
    pallet is not in the metadata. *)
Lemma create_from_data_resolves_eagerly :
  create_from_data [Byte.x00] config sample_metadata None (Some "Balances") (Some "Account")
    = inl (pallet_not_found (Some "Balances")) ∧
  create_from_data [Byte.x00] config sample_metadata None (Some "System") (Some "Account")
    = inl (storage_function_not_found (Some "System") (Some "Account")) ∧
  value_scale_type <$>
    create_from_data [Byte.x00] config sample_metadata None (Some "System") (Some "Counter")
    = inr (Some (TypeString "u8")).
Proof. repeat split; vm_compute; reflexivity. Qed.

End Examples.

(** * Further properties *)

(** ** The hexadecimal form of the key *)

(** X1: [to_hex] is [None] exactly for an object without key bytes (no
    data, or empty data); otherwise it is ["0x"] and two digits for each
    byte, and [ScaleBytes] of it is the data again. *)
Theorem to_hex_roundtrip (self : StorageKey) :
  (to_hex self = None ↔ truthy_bytes (data self) = false) ∧
  (∀ h, to_hex self = Some h →
        ∃ key, data self = Some key ∧ key ≠ [] ∧
               ScaleBytes_of_str h = inr key ∧
               String.length h = 2 + 2 * length key).
Proof.
  unfold to_hex. destruct (data self) as [key|]; [|by split].
  destruct (decide (key = [])) as [->|Hne]; [by split|].
  assert (truthy_bytes (Some key) = true) as -> by (by destruct key).
  split; [done|]. intros h [= <-]. exists key.
  split; [done|]. split; [done|]. split.
  - apply ScaleBytes_of_hex.
  - change (S (S (String.length (hex key))) = 2 + 2 * length key).
    rewrite hex_length. lia.
Qed.

(** ** Objects made for an address *)

Section FurtherGenerate.
Context `{HashPrimitives}.

Lemma resolves_unique (self : StorageKey) (r r' : resolution) :
  resolves self r → resolves self r' → r = r'.
Proof.
  destruct r as [mp st fn name vt types], r' as [mp' st' fn' name' vt' types'].
  unfold resolves. cbn.
  intros (E1 & E2 & E3 & E4 & E5 & E6) (E1' & E2' & E3' & E4' & E5' & E6').
  rewrite E1 in E1'. injection E1' as <-.
  rewrite E2 in E2'. injection E2' as <-.
  rewrite E3 in E3'. injection E3' as <-.
  rewrite E4 in E4'. injection E4' as <-.
  rewrite E5 in E5'. injection E5' as <-.
  rewrite E6 in E6'. by injection E6' as <-.
Qed.

Lemma resolves_same_function (s1 s2 : StorageKey) (r : resolution) :
  same_function s1 s2 → resolves s2 r → resolves s1 r.
Proof. unfold same_function, resolves. by intros (-> & -> & ->). Qed.

(** What [generate] returns and leaves on the object when it returns a key. *)
Lemma generate_succeeds (self : StorageKey) (key : bytes) :
  (generate self).1 = inr key →
  ∃ r bs segs,
    resolves self r ∧
    imap (encode_param (Some (res_param_types r))) (supplied (params self)) = inr <$> bs ∧
    imap (hash_param (Some (get_param_hashers (res_function r)))) bs = inr <$> segs ∧
    key = key_prefix r ++ concat segs ∧
    generate self = (inr key, set_data (Some key) (resolved r bs self)).
Proof.
  intros Hkey.
  destruct (generate_inr self key Hkey) as (r & bs & segs & Hres & Hps & Hsegs & ->).
  exists r, bs, segs. split_and!; try done.
  by rewrite (generate_resolved self r bs Hres Hps), (hash_all_ok _ _ 0 _ segs Hsegs).
Qed.

Lemma imap_take_inr {A B E : Type} (l : list A) : ∀ (f : nat → A → E + B) n (out : list B),
  imap f l = inr <$> out → imap f (take n l) = inr <$> take n out.
Proof.
  induction l as [|x l IH]; intros f n [|y out]; cbn; try done.
  - intros _. by destruct n.
  - intros [= Hx Hl]. destruct n as [|n]; [done|]. cbn. rewrite Hx. f_equal.
    by apply IH.
Qed.

Lemma imap_drop_inr {A B E : Type} (l : list A) : ∀ (f : nat → A → E + B) n (out : list B),
  imap f l = inr <$> out →
  imap (λ i, f (n + i)) (drop n l) = inr <$> drop n out.
Proof.
  induction l as [|x l IH]; intros f n [|y out]; cbn; try done.
  - intros _. by destruct n.
  - intros [= Hx Hl]. destruct n as [|n]; cbn.
    + rewrite Hx. f_equal. exact Hl.
    + by apply (IH (f ∘ S)).
Qed.

End FurtherGenerate.

(** What is on an object that [create_from_storage_function] returns. *)
Lemma create_from_storage_function_inr `{HashPrimitives}
    (pallet_name function_name : option string) (ps : option (list param))
    (runtime_config : RuntimeConfigurationObject) (metadata : GenericMetadataVersioned)
    (obj : StorageKey) :
  let fresh := init pallet_name function_name ps None None None metadata runtime_config in
  create_from_storage_function pallet_name function_name ps runtime_config metadata
    = inr obj →
  ∃ r bs key,
    resolves fresh r ∧ (generate fresh).1 = inr key ∧
    length bs = length (supplied ps) ∧
    (∃ segs, key = key_prefix r ++ concat segs) ∧
    obj = set_data (Some key) (resolved r bs fresh).
Proof.
  intros fresh. unfold create_from_storage_function. fold fresh.
  destruct (generate fresh) as [[e|key] after] eqn:Erun; cbn; [discriminate|].
  intros [= <-].
  destruct (generate_succeeds fresh key) as (r & bs & segs & Hres & Hps & Hsegs & Hkey & Hrun).
  { by rewrite Erun. }
  rewrite Erun in Hrun. injection Hrun as ->.
  exists r, bs, key. split_and!; try done; [|by exists segs].
  apply (f_equal length) in Hps. by rewrite length_imap, length_fmap in Hps.
Qed.

(** X2: [create_from_storage_function] raises what [generate] raises on
    the new object, and an object it returns is resolved throughout: its
    key bytes are the key, at least 32 bytes, with a hexadecimal form, and
    the storage function, the value type, the parameter types, the hash
    kinds and one encoded form for each parameter are on the object. *)
Theorem create_from_storage_function_resolved `{HashPrimitives} `{!HashLengths}
    (pallet_name function_name : option string) (ps : option (list param))
    (runtime_config : RuntimeConfigurationObject) (metadata : GenericMetadataVersioned) :
  let fresh := init pallet_name function_name ps None None None metadata runtime_config in
  let made := create_from_storage_function pallet_name function_name ps runtime_config metadata in
  (∀ e, made = inl e ↔ (generate fresh).1 = inl e) ∧
  (∀ obj, made = inr obj →
     ∃ r key,
       resolves fresh r ∧ (generate fresh).1 = inr key ∧
       data obj = Some key ∧ 32 ≤ length key ∧ to_hex obj = Some ("0x" +:+ hex key) ∧
       metadata_storage_function obj = Some (res_function r) ∧
       value_scale_type obj = Some (TypeDef (res_value_type r)) ∧
       param_scale_types obj = Some (res_param_types r) ∧
       param_hashers obj = Some (get_param_hashers (res_function r)) ∧
       length (params_encoded obj) = length (supplied ps) ∧
       pallet obj = pallet_name ∧ storage_function obj = function_name ∧ params obj = ps).
Proof.
  intros fresh made. split.
  - subst made. unfold create_from_storage_function. fold fresh.
    destruct (generate fresh) as [[e|key] after]; cbn; intros e'; split; by intros [= <-].
  - intros obj Hmade.
    destruct (create_from_storage_function_inr _ _ _ _ _ _ Hmade)
      as (r & bs & key & Hres & Hkey & Hbs & [segs Hsegs] & ->).
    assert (32 ≤ length key) as Hlen.
    { rewrite Hsegs, length_app, key_prefix_length. lia. }
    exists r, key. split_and!; try done.
    apply to_hex_data; [done|lia].
Qed.

(** X3: the key for the first parameters of an address is the beginning
    of the key for all of them: when [generate] returns a key for the
    parameters [ps ++ qs], it returns one for [ps] on the same storage
    function, and the first key goes on from the second. *)
Theorem generate_key_extends `{HashPrimitives} (full part : StorageKey)
    (ps qs : list param) (key : bytes) :
  same_function part full →
  supplied (params full) = ps ++ qs →
  supplied (params part) = ps →
  (generate full).1 = inr key →
  ∃ key' rest, (generate part).1 = inr key' ∧ key = key' ++ rest.
Proof.
  intros Hsame Hfull Hpart Hkey.
  destruct (generate_succeeds full key Hkey) as (r & bs & segs & Hres & Hps & Hsegs & -> & _).
  rewrite Hfull in Hps.
  pose proof (imap_take_inr _ _ (length ps) _ Hps) as Hps1.
  rewrite take_app_length in Hps1.
  pose proof (imap_take_inr _ _ (length ps) _ Hsegs) as Hsegs1.
  exists (key_prefix r ++ concat (take (length ps) segs)), (concat (drop (length ps) segs)).
  split.
  - rewrite (generate_resolved part r (take (length ps) bs)).
    + by rewrite (hash_all_ok _ _ 0 _ _ Hsegs1).
    + by eapply resolves_same_function.
    + by rewrite Hpart.
  - by rewrite <- app_assoc, <- concat_app, take_drop.
Qed.

(** ** The tail of a key, from any parameter on *)

(** The tail of the key of [full], decoded on the object generated for
    its first parameters. *)
Lemma decode_key_data_rest `{HashPrimitives} `{!HashLengths} `{!ConcatLaws}
    (full part : StorageKey) (r : resolution) (ps qs : list param)
    (hashers_fixed hashers_rest : list (option string))
    (types_fixed types_rest : list ScaleTypeDef)
    (vs : list value) (bs_rest : list ScaleBytes) (key : bytes) :
  resolves full r →
  same_function part full →
  supplied (params full) = ps ++ qs →
  supplied (params part) = ps →
  get_param_hashers (res_function r) = hashers_fixed ++ hashers_rest →
  res_param_types r = types_fixed ++ types_rest →
  length hashers_fixed = length ps →
  length types_fixed = length ps →
  qs ≠ [] →
  concat_slots hashers_rest types_rest qs vs bs_rest →
  (generate full).1 = inr key →
  ∃ decoded,
    decode_key_data (generate part).2 ("0x" +:+ hex key) (length ps) = inr decoded ∧
    key_values decoded = vs.
Proof.
  intros Hres Hsame Hfull Hpart Hhashers Htypes Hhf Htf Hsome Hslots Hkey.
  destruct (generate_succeeds full key Hkey) as (r' & bs & segs & Hres' & Hps & Hsegs & -> & _).
  rewrite (resolves_unique full r' r Hres' Hres) in *. clear Hres'.
  rewrite Hfull in Hps.
  pose proof (imap_take_inr _ _ (length ps) _ Hps) as Hps1.
  rewrite take_app_length in Hps1.
  pose proof (imap_drop_inr _ _ (length ps) _ Hps) as Hps2.
  rewrite drop_app_length in Hps2.
  pose proof (imap_take_inr _ _ (length ps) _ Hsegs) as Hsegs1.
  pose proof (imap_drop_inr _ _ (length ps) _ Hsegs) as Hsegs2.
  set (part_key := key_prefix r ++ concat (take (length ps) segs)).
  set (after := set_data (Some part_key) (resolved r (take (length ps) bs) part)).
  (* the encoded forms of the parameters from [n] on *)
  pose proof (concat_slots_encode _ _ _ _ _ Hslots types_fixed) as Hrest.
  rewrite <- Htypes, Htf, Hps2 in Hrest.
  apply (inj (fmap inr)) in Hrest.
  (* their segments, the key type and its decoding *)
  destruct (concat_slots_tail _ _ _ _ _ Hslots hashers_fixed types_fixed after)
    as (segs_rest & items & fields & Hsegs_rest & Hitems & Hdec & Hvals & Hempty).
  { by rewrite Hhf, Htf. }
  { cbn. by rewrite Hhashers. }
  rewrite <- Hhashers, Hhf, <- Hrest, Hsegs2 in Hsegs_rest.
  apply (inj (fmap inr)) in Hsegs_rest.
  assert (generate part = (inr part_key, after)) as Hrun.
  { rewrite (generate_resolved part r (take (length ps) bs)).
    - by rewrite (hash_all_ok _ _ 0 _ _ Hsegs1).
    - by eapply resolves_same_function.
    - by rewrite Hpart. }
  assert (key_prefix r ++ concat segs = part_key ++ concat segs_rest) as ->.
  { unfold part_key. by rewrite <- app_assoc, <- concat_app, <- Hsegs_rest, take_drop. }
  assert (0 < length part_key) as Hlen.
  { unfold part_key. rewrite length_app, key_prefix_length. lia. }
  rewrite Hrun. cbn [snd].
  exists {| scale_type_def := Tuple items; scale_value := VTuple fields;
            meta_info := None |}.
  split; [|exact Hvals].
  unfold decode_key_data, create_key_type_def.
  rewrite (to_hex_data after part_key eq_refl Hlen).
  assert (param_scale_types after = Some (types_fixed ++ types_rest)) as ->.
  { cbn. by rewrite Htypes. }
  cbn -[String.append String.length hex str_drop].
  rewrite length_app, Htf, Nat.add_sub'. rewrite Htf in Hitems. rewrite Hitems.
  cbn -[String.append String.length hex str_drop].
  rewrite str_drop_hex_prefix, ScaleBytes_of_hex. cbn.
  unfold decode_new.
  specialize (Hdec []). rewrite app_nil_r in Hdec.
  by rewrite (decode_tuple_fields items _ [] fields) by (by intros ?%Hempty || done).
Qed.

(** X4: [decode_key_data] from parameter [n] on: on the object generated
    for the first [n] parameters of an address, and on the hexadecimal
    form of the key generated for all parameters, it returns the values of
    the parameters from [n] on, when there is at least one and these have
    concatenating hash kinds; the first [n] may have any hash kind. *)
Theorem decode_key_data_tail `{HashPrimitives} `{!HashLengths} `{!ConcatLaws}
    (full part : StorageKey) (r : resolution) (ps qs : list param)
    (hashers_fixed hashers_rest : list (option string))
    (types_fixed types_rest : list ScaleTypeDef)
    (vs : list value) (bs_rest : list ScaleBytes) (key : bytes) :
  resolves full r →
  same_function part full →
  supplied (params full) = ps ++ qs →
  supplied (params part) = ps →
  get_param_hashers (res_function r) = hashers_fixed ++ hashers_rest →
  res_param_types r = types_fixed ++ types_rest →
  length hashers_fixed = length ps →
  length types_fixed = length ps →
  qs ≠ [] →
  concat_slots hashers_rest types_rest qs vs bs_rest →
  (generate full).1 = inr key →
  ∃ decoded,
    decode_key_data (generate part).2 ("0x" +:+ hex key) (length ps) = inr decoded ∧
    key_values decoded = vs.
Proof. apply decode_key_data_rest. Qed.

(** X5: under concatenating hash kinds the key tells the parameters: two
    complete addresses of one storage function whose keys are the same
    stand for the same values. *)
Theorem generate_key_injective `{HashPrimitives} `{!HashLengths} `{!ConcatLaws}
    (s1 s2 : StorageKey) (r : resolution) (vs1 vs2 : list value)
    (bs1 bs2 : list ScaleBytes) (key : bytes) :
  resolves s1 r →
  same_function s2 s1 →
  concat_slots (get_param_hashers (res_function r)) (res_param_types r)
    (supplied (params s1)) vs1 bs1 →
  concat_slots (get_param_hashers (res_function r)) (res_param_types r)
    (supplied (params s2)) vs2 bs2 →
  (generate s1).1 = inr key →
  (generate s2).1 = inr key →
  vs1 = vs2.
Proof.
  intros Hres Hsame Hslots1 Hslots2 Hkey1 Hkey2.
  destruct (decide (supplied (params s1) = [])) as [Hnone|Hsome1].
  { rewrite Hnone in Hslots1. inversion Hslots1 as [Eh ET| ]. subst.
    rewrite <- Eh in Hslots2. by inversion Hslots2. }
  assert (supplied (params s2) ≠ []) as Hsome2.
  { intros Hnone. rewrite Hnone in Hslots2. inversion Hslots2 as [Eh ET| ]. subst.
    rewrite <- Eh in Hslots1. by inversion Hslots1. }
  pose (part := init (pallet s1) (storage_function s1) None None None None
                  (metadata s1) (runtime_config s1)).
  assert (same_function part s1) as Hpart1 by done.
  assert (same_function part s2) as Hpart2.
  { destruct Hsame as (Hp & Hf & Hm). unfold same_function. cbn. by rewrite Hp, Hf, Hm. }
  destruct (decode_key_data_rest s1 part r [] (supplied (params s1)) []
              (get_param_hashers (res_function r)) [] (res_param_types r) vs1 bs1 key)
    as (d1 & Hd1 & <-); try done.
  destruct (decode_key_data_rest s2 part r [] (supplied (params s2)) []
              (get_param_hashers (res_function r)) [] (res_param_types r) vs2 bs2 key)
    as (d2 & Hd2 & <-); try done.
  { by eapply resolves_same_function. }
  rewrite Hd1 in Hd2. by injection Hd2 as ->.
Qed.

(** ** The length of a key, and parameters that are already encoded *)

Section KeyLength.
Context `{HashPrimitives} `{!HashLengths}.

Lemma apply_hasher_length (name : string) (input segment : bytes) :
  apply_hasher name input = inr segment →
  length segment = segment_length name (length input).
Proof.
  unfold apply_hasher, segment_length.
  repeat case_decide; intros [= <-]; try done.
  - apply blake2_256_length.
  - apply blake2_128_length.
  - apply blake2_128_concat_length.
  - apply xxh128_length.
  - apply two_x64_concat_length.
  - apply identity_length.
Qed.

Lemma segments_length hashers (bs : list ScaleBytes) : ∀ idx (segs : list bytes),
  imap (λ i, hash_param (Some hashers) (idx + i)) bs = inr <$> segs →
  length (concat segs) =
    sum_list (zip_with (λ h b, segment_length (default_hasher h) (length b))
                (drop idx hashers) bs).
Proof.
  induction bs as [|b bs IH]; intros idx [|seg segs]; cbn; try done.
  { by destruct (drop idx hashers). }
  rewrite Nat.add_0_r. intros [= Hb Hrest].
  unfold hash_param in Hb. cbn in Hb.
  destruct (hashers !! idx) as [h|] eqn:Eh; [|discriminate]. cbn in Hb.
  rewrite (drop_S _ _ _ Eh). cbn.
  rewrite length_app, (apply_hasher_length _ _ _ Hb). f_equal.
  apply IH. rewrite <- Hrest. apply imap_ext. intros i x _. unfold compose.
  by replace (idx + S i) with (S idx + i) by lia.
Qed.

End KeyLength.

Lemma imap_encoded types (bs : list ScaleBytes) : ∀ idx,
  imap (λ i, encode_param types (idx + i)) (Encoded <$> bs) = inr <$> bs.
Proof.
  induction bs as [|b bs IH]; intros idx; [done|].
  cbn. f_equal. rewrite <- (IH (S idx)). apply imap_ext. intros i x _. unfold compose.
  by replace (idx + S i) with (S idx + i) by lia.
Qed.

(** X6: the length of a key that [generate] returns is 32 and, for each
    parameter, what its hash kind makes of the length of its encoded form:
    32 or 16 bytes for a hash of the input alone, 16 or 8 more than the
    input for a concatenating hash, the input for the identity. *)
Theorem generate_key_length `{HashPrimitives} `{!HashLengths}
    (self : StorageKey) (key : bytes) :
  (generate self).1 = inr key →
  ∃ r, resolves self r ∧
       length (params_encoded (generate self).2) = length (supplied (params self)) ∧
       length key =
         32 + sum_list (zip_with (λ h b, segment_length (default_hasher h) (length b))
                          (get_param_hashers (res_function r))
                          (params_encoded (generate self).2)).
Proof.
  intros Hkey.
  destruct (generate_succeeds self key Hkey) as (r & bs & segs & Hres & Hps & Hsegs & -> & Hrun).
  assert (params_encoded (generate self).2 = bs) as -> by (by rewrite Hrun).
  exists r. split; [done|]. split.
  - apply (f_equal length) in Hps. by rewrite length_imap, length_fmap in Hps.
  - rewrite length_app, key_prefix_length. f_equal.
    apply (segments_length _ _ 0 _ Hsegs).
Qed.

(** X7: parameters can be given already encoded: when [generate] returns
    a key, the encoded parameters it leaves on the object, given as the
    parameters of the same storage function, make the same key. *)
Theorem generate_pre_encoded `{HashPrimitives} (self other : StorageKey) (key : bytes) :
  same_function other self →
  (generate self).1 = inr key →
  params other = Some (Encoded <$> params_encoded (generate self).2) →
  (generate other).1 = inr key.
Proof.
  intros Hsame Hkey Hparams.
  destruct (generate_succeeds self key Hkey) as (r & bs & segs & Hres & Hps & Hsegs & -> & Hrun).
  rewrite Hrun in Hparams. cbn in Hparams.
  rewrite (generate_resolved other r bs).
  - by rewrite (hash_all_ok _ _ 0 _ segs Hsegs).
  - by eapply resolves_same_function.
  - rewrite Hparams. apply (imap_encoded _ _ 0).
Qed.

(** ** The type of the tail of a key *)

Section KeyType.
Context `{HashPrimitives}.

Lemma key_items_shape (self : StorageKey) (types : list ScaleTypeDef) :
  ∀ m n items,
    key_items self types (seq n m) = inr items →
    length items = 2 * m ∧
    ∀ k, k < m →
         items !! (2 * k + 1) = types !! (n + k) ∧
         ∃ hashers h block,
           param_hashers self = Some hashers ∧ hashers !! (n + k) = Some h ∧
           concat_hash_len h = inr block ∧ items !! (2 * k) = Some (Array U8 block).
Proof.
  induction m as [|m IH]; intros n items; cbn.
  { intros [= <-]. split; [done|]. intros k Hk. lia. }
  destruct (param_hashers self) as [hashers|] eqn:Eh; [|discriminate]. cbn.
  destruct (hashers !! n) as [h|] eqn:En; [|discriminate]. cbn.
  destruct (concat_hash_len h) as [e|block] eqn:Eb; [discriminate|]. cbn.
  destruct (types !! n) as [T|] eqn:ET; [|discriminate]. cbn.
  destruct (key_items self types (seq (S n) m)) as [e|rest] eqn:Erest; [discriminate|].
  cbn. intros [= <-].
  destruct (IH (S n) rest Erest) as [Hlen Hrest].
  split; [cbn; lia|].
  intros [|k] Hk.
  - rewrite (Nat.add_0_r n), ET. split; [done|]. by exists hashers, h, block.
  - destruct (Hrest k) as [Htype Hblock]; [lia|].
    replace (S k + (S k + 0) + 1) with (S (S (2 * k + 1))) by lia.
    replace (S k + (S k + 0)) with (S (S (2 * k))) by lia.
    replace (n + S k) with (S n + k) by lia.
    split; [exact Htype|].
    destruct Hblock as (hs & h' & block' & Hhs & ? & ? & ?).
    injection Hhs as <-. by exists hashers, h', block'.
Qed.

End KeyType.

(** X8: the type [create_key_type_def] builds for the parameters from
    [param_count] on is a tuple of two fields for each of them: a block of
    bytes as long as [concat_hash_len] says for the hash kind of the
    parameter, then the declared type of the parameter.  From the number
    of declared types on it is the empty tuple, whatever the hash kinds;
    without resolved parameter types it is a [TypeError]. *)
Theorem create_key_type_def_shape `{HashPrimitives} (self : StorageKey) (param_count : nat) :
  (∀ T, create_key_type_def self param_count = inr T →
        ∃ types items,
          param_scale_types self = Some types ∧ T = Tuple items ∧
          length items = 2 * (length types - param_count) ∧
          ∀ k, k < length types - param_count →
               items !! (2 * k + 1) = types !! (param_count + k) ∧
               ∃ hashers h block,
                 param_hashers self = Some hashers ∧
                 hashers !! (param_count + k) = Some h ∧
                 concat_hash_len h = inr block ∧
                 items !! (2 * k) = Some (Array U8 block)) ∧
  (∀ types, param_scale_types self = Some types → length types ≤ param_count →
            create_key_type_def self param_count = inr (Tuple [])) ∧
  (param_scale_types self = None → create_key_type_def self param_count = inl TypeError).
Proof.
  unfold create_key_type_def. split; [|split].
  - intros T. destruct (param_scale_types self) as [types|]; [|discriminate]. cbn.
    destruct (key_items self types (seq param_count (length types - param_count)))
      as [e|items] eqn:Eitems; [discriminate|].
    cbn. intros [= <-]. exists types, items.
    destruct (key_items_shape self types _ _ _ Eitems) as [Hlen Hfields]. done.
  - intros types -> Hle. cbn. by replace (length types - param_count) with 0 by lia.
  - by intros ->.
Qed.

(** ** Values *)

(** X9: what is encoded with the value type of an object comes back from
    [decode_scale_value], given as bytes or as their hexadecimal string,
    with [result_found] true; the storage function is not looked at. *)
Theorem decode_scale_value_roundtrip (self : StorageKey) (T : ScaleTypeDef)
    (v : value) (b : ScaleBytes) :
  value_scale_type self = Some (TypeDef T) →
  encode T v = Some b →
  decode_scale_value self (Some (inl b)) =
    inr {| scale_type_def := T; scale_value := v; meta_info := Some true |} ∧
  decode_scale_value self (Some (inr ("0x" +:+ hex b))) =
    inr {| scale_type_def := T; scale_value := v; meta_info := Some true |}.
Proof.
  intros HT Henc.
  pose proof (decode_encode T v b [] Henc) as Hdec. rewrite app_nil_r in Hdec.
  unfold decode_scale_value. rewrite ScaleBytes_of_hex. cbn.
  rewrite HT. cbn. unfold decode_new. by rewrite Hdec.
Qed.

(** X10: for a storage function with the modifier "Default", no raw bytes
    and the default bytes themselves as raw bytes are decoded alike, to the
    same value or to the same exception; only [result_found] tells them
    apart, false without raw bytes and true with them. *)
Theorem decode_default_as_given (self : StorageKey) (function : StorageEntry) :
  metadata_storage_function self = Some function →
  modifier function = "Default" →
  decoded_value <$> decode_scale_value self None =
    decoded_value <$> decode_scale_value self (Some (inl (default_bytes function))) ∧
  (∀ decoded, decode_scale_value self None = inr decoded →
              meta_info decoded = Some false) ∧
  (∀ decoded, decode_scale_value self (Some (inl (default_bytes function))) = inr decoded →
              meta_info decoded = Some true).
Proof.
  intros Hf Hmod. unfold decode_scale_value. cbn.
  rewrite Hf. cbn. rewrite decide_True by done. cbn.
  destruct (as_type_def (value_scale_type self)) as [e|T]; cbn; [done|].
  destruct (decode_new T (default_bytes function)) as [e|obj]; cbn; [done|].
  split; [done|]. split; by intros decoded [= <-].
Qed.

(** X11: for a storage function that is not "Default", the default bytes
    are read as an option: after the byte 0x01 the encoded value is
    decoded, and comes back with [result_found] false; and without any
    default byte the codec's exception comes back. *)
Theorem decode_optional_default_value (self : StorageKey) (function : StorageEntry)
    (T : ScaleTypeDef) :
  metadata_storage_function self = Some function →
  modifier function ≠ "Default" →
  value_scale_type self = Some (TypeDef T) →
  (∀ v b, encode T v = Some b → default_bytes function = Byte.x01 :: b →
          decode_scale_value self None =
            inr {| scale_type_def := Option T; scale_value := v;
                   meta_info := Some false |}) ∧
  (default_bytes function = [] → decode_scale_value self None = inl ScaleError).
Proof.
  intros Hf Hmod HT. unfold decode_scale_value. cbn.
  rewrite Hf. cbn. rewrite decide_False by done. cbn.
  rewrite HT. cbn. unfold decode_new. split.
  - intros v b Henc ->.
    pose proof (decode_encode T v b [] Henc) as Hdec. rewrite app_nil_r in Hdec.
    cbn. by rewrite Hdec.
  - by intros ->.
Qed.

(** ** Objects made from raw key bytes *)

Lemma create_from_data_fields (raw : bytes)
    (runtime_config : RuntimeConfigurationObject) (metadata : GenericMetadataVersioned)
    (value_scale_type pallet_name function_name : option string) (obj : StorageKey) :
  create_from_data raw runtime_config metadata value_scale_type pallet_name function_name
    = inr obj →
  ∃ hint, obj = init pallet_name function_name None (Some raw) (TypeString <$> hint) None
                  metadata runtime_config.
Proof.
  unfold create_from_data.
  destruct (if negb (truthy_str value_scale_type) && truthy_str pallet_name
               && truthy_str function_name then _ else _) as [e|hint]; [discriminate|].
  cbn. intros [= <-]. by exists hint.
Qed.

(** X12: an object that [create_from_data] returns holds the raw bytes as
    its key and nothing that is resolved: no parameter types, no hash
    kinds, no storage function, and a value type that is a type string or
    [None].  On it [decode_scale_value] raises [AttributeError], with raw
    bytes or without, and [decode_key_data] raises [TypeError]. *)
Theorem create_from_data_unresolved `{HashPrimitives} (raw : bytes)
    (runtime_config : RuntimeConfigurationObject) (metadata : GenericMetadataVersioned)
    (value_scale_type pallet_name function_name : option string) (obj : StorageKey) :
  create_from_data raw runtime_config metadata value_scale_type pallet_name function_name
    = inr obj →
  data obj = Some raw ∧ params obj = None ∧
  param_scale_types obj = None ∧ param_hashers obj = None ∧
  metadata_storage_function obj = None ∧
  decode_scale_value obj None = inl AttributeError ∧
  (∀ b, decode_scale_value obj (Some (inl b)) = inl AttributeError) ∧
  (∀ hex_data param_count, decode_key_data obj hex_data param_count = inl TypeError).
Proof.
  intros Hobj. destruct (create_from_data_fields _ _ _ _ _ _ _ Hobj) as [hint ->].
  split_and!; try done.
  intros b. unfold decode_scale_value. cbn. by destruct hint.
Qed.

(** X13: [generate] on an object that [create_from_data] returned does
    not keep the raw bytes: when the pallet and the storage function
    resolve, it returns the hash of the storage prefix and the hash of the
    function name, 32 bytes, and these are the key bytes of the object
    from then on. *)
Theorem generate_after_create_from_data `{HashPrimitives} `{!HashLengths} (raw : bytes)
    (runtime_config : RuntimeConfigurationObject) (metadata : GenericMetadataVersioned)
    (value_scale_type pallet_name function_name : option string)
    (obj : StorageKey) (r : resolution) :
  create_from_data raw runtime_config metadata value_scale_type pallet_name function_name
    = inr obj →
  resolves obj r →
  (generate obj).1 = inr (key_prefix r) ∧
  data (generate obj).2 = Some (key_prefix r) ∧
  length (key_prefix r) = 32.
Proof.
  intros Hobj Hres.
  destruct (create_from_data_fields _ _ _ _ _ _ _ Hobj) as [hint Hfields].
  rewrite (generate_resolved obj r []); [|done|by rewrite Hfields].
  assert (hash_all (Some (get_param_hashers (res_function r))) 0 [] (key_prefix r)
          = inr (key_prefix r)) as -> by done.
  split_and!; try done. apply key_prefix_length.
Qed.

(** ** Parameters of storage functions *)

(** X14: what [convert_storage_parameter] returns it returns again when
    given it: bytes become ["0x"] and their hexadecimal digits, for the
    type "AccountId" the result begins with ["0x"], and on a result the
    address is not decoded a second time. *)
Theorem convert_storage_parameter_idempotent (ss58_decode : string → nat → result string)
    (self : StorageKey) (scale_type : string) (value : storage_parameter) (out : string) :
  convert_storage_parameter ss58_decode self scale_type value = inr out →
  convert_storage_parameter ss58_decode self scale_type (ParamStr out) = inr out ∧
  (∀ b, value = ParamBytes b → out = "0x" +:+ hex b) ∧
  (scale_type = "AccountId" → str_take 2 out = "0x").
Proof.
  unfold convert_storage_parameter.
  assert (∀ x, str_take 2 ("0x" +:+ x) = "0x") as Htake by done.
  assert (∀ x, bool_decide (str_take 2 ("0x" +:+ x) = "0x") = true) as Hhex.
  { intros x. by apply bool_decide_eq_true_2. }
  destruct (decide (scale_type = "AccountId")) as [->|Hother].
  - destruct value as [b|s].
    + rewrite Hhex. cbn [negb mret result_ret]. intros [= <-].
      rewrite Hhex. cbn [negb mret result_ret].
      split_and!; [done|by intros ? [= <-]|by intros _].
    + destruct (bool_decide (str_take 2 s = "0x")) eqn:Es; cbn [negb mret result_ret].
      * intros [= <-]. rewrite Es. cbn [negb]. apply bool_decide_eq_true_1 in Es.
        split_and!; [done|by intros ? [=]|by intros _].
      * destruct (ss58_decode s (ss58_format (runtime_config self))) as [e|account];
          cbn [mbind result_bind mret result_ret]; [discriminate|].
        intros [= <-]. rewrite Hhex. cbn [negb].
        split_and!; [done|by intros ? [=]|by intros _].
  - destruct value as [b|s]; cbn [mret result_ret]; intros [= <-];
      (split_and!; [done|by intros ? [= <-]|by intros ?]).
Qed.

(** ** The textual representation and the key *)

(** X15: the textual representation of an object without both names and
    with key bytes is its hexadecimal form between ["<StorageKey(data="]
    and [")>"]; and with both names it is made of the names and of the
    parameters alone, whatever the key bytes. *)
Theorem repr_shows_key_or_address (repr_params : option (list param) → string)
    (self : StorageKey) (fuel : nat) :
  (truthy_str (pallet self) && truthy_str (storage_function self) = false →
   ∀ h, to_hex self = Some h →
        repr repr_params (S fuel) self = Some ("<StorageKey(data=" +:+ h +:+ ")>")) ∧
  (truthy_str (pallet self) && truthy_str (storage_function self) = true →
   ∀ key, repr repr_params (S fuel) (set_data key self) = repr repr_params (S fuel) self).
Proof.
  split.
  - intros Hsym h. unfold to_hex. cbn. rewrite Hsym.
    destruct (truthy_bytes (data self)); [|discriminate].
    destruct (data self) as [key|]; [|discriminate]. by intros [= <-].
  - intros Hsym key. cbn. by rewrite Hsym.
Qed.

(** ** What [decode_key_data] reads of its argument *)

Lemma str_drop_hex_same_length (a a' b : bytes) :
  length a' = length a →
  str_drop (String.length ("0x" +:+ hex a)) ("0x" +:+ hex (a' ++ b)) = hex b.
Proof.
  intros Hlen.
  change (str_drop (String.length (hex a)) (hex (a' ++ b)) = hex b).
  rewrite hex_length, <- Hlen, <- hex_length, hex_app. apply str_drop_app.
Qed.

(** The bytes after as many bytes as the key of the object has are what
    is decoded. *)
Lemma decode_key_data_skips `{HashPrimitives} (self : StorageKey)
    (key other tail : bytes) (param_count : nat) :
  data self = Some key → key ≠ [] → length other = length key →
  decode_key_data self ("0x" +:+ hex (other ++ tail)) param_count =
    (key_type ← create_key_type_def self param_count; decode_new key_type tail).
Proof.
  intros Hdata Hne Hlen. unfold decode_key_data.
  destruct (create_key_type_def self param_count) as [e|key_type]; [done|].
  cbn -[String.append String.length hex str_drop].
  rewrite (to_hex_data self key Hdata) by (destruct key; [done|cbn; lia]).
  cbn -[String.append String.length hex str_drop].
  by rewrite (str_drop_hex_same_length key other tail Hlen), ScaleBytes_of_hex.
Qed.

(** X16: [decode_key_data] does not compare the beginning of [hex_data]
    with the key of the object: it skips as many characters as its own
    hexadecimal form has, whatever they are, and decodes the bytes that
    follow with the key type. *)
Theorem decode_key_data_ignores_prefix `{HashPrimitives} (self : StorageKey)
    (key other tail : bytes) (param_count : nat) :
  data self = Some key → key ≠ [] → length other = length key →
  decode_key_data self ("0x" +:+ hex (other ++ tail)) param_count =
    (key_type ← create_key_type_def self param_count; decode_new key_type tail) ∧
  decode_key_data self ("0x" +:+ hex (other ++ tail)) param_count =
    decode_key_data self ("0x" +:+ hex (key ++ tail)) param_count.
Proof.
  intros Hdata Hne Hlen.
  by rewrite (decode_key_data_skips self key other tail), (decode_key_data_skips self key key tail).
Qed.

(** X17: [decode_key_data] needs parameters to decode and bytes to decode
    them from.  From the number of declared parameter types on, the key
    type is a tuple without element types and [decode_key_data] never
    returns, whatever [hex_data]; and given the hexadecimal form of the
    key of the object itself it has no bytes left, and from parameter 0
    it never returns when the first declared hash kind is
    Blake2_128Concat or Twox64Concat. *)
Theorem decode_key_data_own_key `{HashPrimitives} `{!ConcatLaws} (self : StorageKey)
    (key : bytes) (types : list ScaleTypeDef) (hashers : list (option string)) :
  data self = Some key → key ≠ [] →
  param_scale_types self = Some types →
  param_hashers self = Some hashers →
  (∀ n hex_data decoded, length types ≤ n →
                         decode_key_data self hex_data n ≠ inr decoded) ∧
  (types ≠ [] →
   hashers !! 0 = Some (Some "Blake2_128Concat") ∨ hashers !! 0 = Some (Some "Twox64Concat") →
   ∀ decoded, decode_key_data self ("0x" +:+ hex key) 0 ≠ inr decoded).
Proof.
  intros Hdata Hne Htypes Hhashers.
  pose proof (decode_key_data_skips self key key [] ) as Hskip.
  rewrite app_nil_r in Hskip.
  split.
  - intros n hex_data decoded Hn. unfold decode_key_data, create_key_type_def.
    rewrite Htypes. cbn -[String.append String.length str_drop].
    replace (length types - n) with 0 by lia.
    cbn -[String.append String.length str_drop].
    destruct (to_hex self) as [self_hex|]; cbn -[String.append String.length str_drop];
      [|done].
    by destruct (ScaleBytes_of_str _).
  - intros Hsome Hfirst decoded. rewrite Hskip by done.
    unfold create_key_type_def. rewrite Htypes. cbn.
    destruct (key_items self types (seq 0 (length types - 0))) as [e|items] eqn:Eitems;
      [done|].
    destruct (key_items_shape self types _ _ _ Eitems) as [_ Hfields].
    destruct (Hfields 0) as [_ (hs & h & block & Hhs & Hh & Hblock & Hitem)].
    { destruct types; [done|cbn; lia]. }
    rewrite Hhashers in Hhs. injection Hhs as <-. cbn in Hh, Hitem.
    assert (0 < block) as Hpos.
    { destruct Hfirst as [Hf|Hf]; rewrite Hf in Hh; injection Hh as <-.
      - rewrite concat_len_blake2_128 in Hblock. injection Hblock as <-. lia.
      - rewrite concat_len_twox64 in Hblock. injection Hblock as <-. lia. }
    destruct items as [|item items]; [done|]. injection Hitem as ->.
    cbn. unfold decode_new. cbn.
    rewrite decide_False by (cbn; lia). done.
Qed.

(** X18: on an object that [create_from_storage_function] returned,
    [decode_scale_value] with raw bytes or without raises nothing but the
    exception of the codec, and what it returns from raw bytes has the
    value type that the metadata declares for the storage function. *)
Theorem decode_scale_value_after_create `{HashPrimitives}
    (pallet_name function_name : option string) (ps : option (list param))
    (runtime_config : RuntimeConfigurationObject) (metadata : GenericMetadataVersioned)
    (obj : StorageKey) :
  create_from_storage_function pallet_name function_name ps runtime_config metadata
    = inr obj →
  (∀ (raw : option ScaleBytes) e,
     decode_scale_value obj (inl <$> raw) = inl e → e = ScaleError) ∧
  (∀ b decoded r,
     decode_scale_value obj (Some (inl b)) = inr decoded →
     resolves obj r →
     scale_type_def decoded = res_value_type r ∧ meta_info decoded = Some true).
Proof.
  intros Hmade.
  destruct (create_from_storage_function_inr _ _ _ _ _ _ Hmade)
    as (r & bs & key & Hres & Hkey & Hbs & _ & ->).
  split.
  - intros raw e. unfold decode_scale_value. destruct raw as [b|]; cbn.
    + unfold decode_new.
      destruct (decode (res_value_type r) b) as [[v rest]|]; cbn; by intros [= <-].
    + destruct (decide (modifier (res_function r) = "Default")); cbn; unfold decode_new.
      * destruct (decode (res_value_type r) _) as [[v rest]|]; cbn; by intros [= <-].
      * destruct (decode (Option (res_value_type r)) _) as [[v rest]|]; cbn; by intros [= <-].
  - intros b decoded r' Hdec Hres'.
    assert (resolves (init pallet_name function_name ps None None None metadata runtime_config) r')
      as Hfresh by exact Hres'.
    rewrite (resolves_unique _ r' r Hfresh Hres).
    revert Hdec. unfold decode_scale_value. cbn. unfold decode_new.
    destruct (decode (res_value_type r) b) as [[v rest]|]; cbn; [|done].
    by intros [= <-].
Qed.

(** ** The further properties on the sample metadata *)

Module FurtherExamples.
Import Sample FurtherSample Examples.

(** An object made for two parameters of [Pairs]. *)
Lemma create_from_storage_function_resolved_witness :
  ∃ obj key,
    create_from_storage_function (Some "System") (Some "Pairs")
      (Some [Native (VInt 1); Native (VInt 513)]) config sample_metadata = inr obj ∧
    data obj = Some key ∧ 32 ≤ length key ∧
    to_hex obj = Some ("0x" +:+ hex key) ∧
    length (params_encoded obj) = 2.
Proof.
  destruct (create_from_storage_function (Some "System") (Some "Pairs")
              (Some [Native (VInt 1); Native (VInt 513)]) config sample_metadata)
    as [e|obj] eqn:Emade; [vm_compute in Emade; discriminate|].
  destruct (create_from_storage_function_resolved (Some "System") (Some "Pairs")
              (Some [Native (VInt 1); Native (VInt 513)]) config sample_metadata)
    as [_ Hobj].
  destruct (Hobj obj Emade)
    as (r & key & _ & _ & Hdata & Hlen & Hhex & _ & _ & _ & _ & Hencoded & _).
  exists obj, key. split_and!; done.
Defined.

(** The key for the first parameter of [Triples] and the key for all
    three. *)
Lemma generate_key_extends_witness :
  let full := address "Triples"
                (Some [Native (VInt 1); Encoded [Byte.x01; Byte.x02; Byte.x00; Byte.x00];
                       Native (VBool true)]) in
  let part := address "Triples" (Some [Native (VInt 1)]) in
  ∃ key key' rest,
    (generate full).1 = inr key ∧ (generate part).1 = inr key' ∧ key = key' ++ rest.
Proof.
  intros full part.
  destruct (generate full).1 as [e|key] eqn:Ekey; [vm_compute in Ekey; discriminate|].
  destruct (generate_key_extends full part [Native (VInt 1)]
              [Encoded [Byte.x01; Byte.x02; Byte.x00; Byte.x00]; Native (VBool true)] key)
    as (key' & rest & Hpart & Hkey); [done..|].
  by exists key, key', rest.
Defined.

(** The second and the third parameter of [Triples], from the object for
    the first one. *)
Lemma decode_key_data_tail_witness :
  let full := address "Triples"
                (Some [Native (VInt 1); Encoded [Byte.x01; Byte.x02; Byte.x00; Byte.x00];
                       Native (VBool true)]) in
  let part := address "Triples" (Some [Native (VInt 1)]) in
  ∃ key decoded,
    (generate full).1 = inr key ∧
    decode_key_data (generate part).2 ("0x" +:+ hex key) 1 = inr decoded ∧
    key_values decoded = [VInt 513; VBool true].
Proof.
  intros full part.
  destruct (generate full).1 as [e|key] eqn:Ekey; [vm_compute in Ekey; discriminate|].
  destruct (decode_key_data_tail full part (declared triples [U16; U32; Bool])
              [Native (VInt 1)]
              [Encoded [Byte.x01; Byte.x02; Byte.x00; Byte.x00]; Native (VBool true)]
              [Some "Blake2_128Concat"] [Some "Twox64Concat"; Some "Identity"]
              [U16] [U32; Bool] [VInt 513; VBool true]
              [[Byte.x01; Byte.x02; Byte.x00; Byte.x00]; [Byte.x01]] key)
    as (decoded & Hdecoded & Hvalues); try done.
  - apply slots_cons;
      [right; left; reflexivity|split; [reflexivity|right; reflexivity]|].
    apply slots_cons;
      [right; right; reflexivity|split; [reflexivity|left; reflexivity]|].
    apply slots_nil.
  - by exists key, decoded.
Defined.

(** Two complete addresses of [Triples] with one key, one with native
    parameters and one with encoded ones. *)
Lemma generate_key_injective_witness :
  let s1 := address "Triples"
              (Some [Native (VInt 1); Native (VInt 513); Native (VBool true)]) in
  let s2 := address "Triples"
              (Some [Encoded [Byte.x01; Byte.x00];
                     Encoded [Byte.x01; Byte.x02; Byte.x00; Byte.x00];
                     Encoded [Byte.x01]]) in
  (generate s1).1 = (generate s2).1 ∧
  [VInt 1; VInt 513; VBool true] = [VInt 1; VInt 513; VBool true].
Proof.
  intros s1 s2. split; [vm_compute; reflexivity|].
  destruct (generate s1).1 as [e|key] eqn:Ekey; [vm_compute in Ekey; discriminate|].
  assert ((generate s2).1 = inr key) as Ekey'.
  { rewrite <- Ekey. vm_compute. reflexivity. }
  apply (generate_key_injective s1 s2 (declared triples [U16; U32; Bool])
           [VInt 1; VInt 513; VBool true] [VInt 1; VInt 513; VBool true]
           [[Byte.x01; Byte.x00]; [Byte.x01; Byte.x02; Byte.x00; Byte.x00]; [Byte.x01]]
           [[Byte.x01; Byte.x00]; [Byte.x01; Byte.x02; Byte.x00; Byte.x00]; [Byte.x01]]
           key); try done.
  - apply slots_cons; [left; reflexivity|split; [reflexivity|left; reflexivity]|].
    apply slots_cons; [right; left; reflexivity|split; [reflexivity|left; reflexivity]|].
    apply slots_cons; [right; right; reflexivity|split; [reflexivity|left; reflexivity]|].
    apply slots_nil.
  - apply slots_cons; [left; reflexivity|split; [reflexivity|right; reflexivity]|].
    apply slots_cons; [right; left; reflexivity|split; [reflexivity|right; reflexivity]|].
    apply slots_cons; [right; right; reflexivity|split; [reflexivity|right; reflexivity]|].
    apply slots_nil.
Defined.

(** The key of two parameters of [Pairs], hashed by Twox128 and
    Twox64Concat, with encoded forms of 1 and 2 bytes. *)
Lemma generate_key_length_witness :
  let self := address "Pairs" (Some [Native (VInt 1); Native (VInt 513)]) in
  ∃ key, (generate self).1 = inr key ∧ length key = 32 + (16 + (8 + 2)).
Proof.
  intros self.
  destruct (generate self).1 as [e|key] eqn:Ekey; [vm_compute in Ekey; discriminate|].
  destruct (generate_key_length self key Ekey) as (r & Hres & _ & Hlen).
  rewrite (resolves_unique self r (declared pairs [U8; U16]) Hres) in Hlen
    by (repeat split; reflexivity).
  exists key. split; [reflexivity|]. rewrite Hlen. vm_compute. reflexivity.
Defined.

(** The parameters of [Pairs], native and already encoded. *)
Lemma generate_pre_encoded_witness :
  let self := address "Pairs" (Some [Native (VInt 1); Native (VInt 513)]) in
  let other := address "Pairs" (Some [Encoded [Byte.x01]; Encoded [Byte.x01; Byte.x02]]) in
  ∃ key, (generate self).1 = inr key ∧ (generate other).1 = inr key.
Proof.
  intros self other.
  destruct (generate self).1 as [e|key] eqn:Ekey; [vm_compute in Ekey; discriminate|].
  exists key. split; [reflexivity|].
  apply (generate_pre_encoded self other key); [done|exact Ekey|vm_compute; reflexivity].
Defined.

(** The byte 0x07 as the value of [Counter]. *)
Lemma decode_scale_value_roundtrip_witness :
  let self := (generate (address "Counter" None)).2 in
  decode_scale_value self (Some (inl [Byte.x07])) =
    inr {| scale_type_def := U8; scale_value := VInt 7; meta_info := Some true |} ∧
  decode_scale_value self (Some (inr ("0x" +:+ hex [Byte.x07]))) =
    inr {| scale_type_def := U8; scale_value := VInt 7; meta_info := Some true |}.
Proof.
  intros self.
  apply (decode_scale_value_roundtrip self U8 (VInt 7) [Byte.x07]); reflexivity.
Defined.

(** [Counter] is "Default", with the default byte 0x2a. *)
Lemma decode_default_as_given_witness :
  let self := (generate (address "Counter" None)).2 in
  decoded_value <$> decode_scale_value self None =
    decoded_value <$> decode_scale_value self (Some (inl [Byte.x2a])).
Proof.
  intros self.
  destruct (decode_default_as_given self counter) as [Hsame _]; [reflexivity..|].
  exact Hsame.
Defined.

(** [Stored] is not "Default"; its default bytes are 0x01 and the value
    42. *)
Lemma decode_optional_default_value_witness :
  decode_scale_value (generate stored_address).2 None =
    inr {| scale_type_def := Option U8; scale_value := VInt 42; meta_info := Some false |}.
Proof.
  destruct (decode_optional_default_value (generate stored_address).2 stored U8)
    as [Hvalue _]; [reflexivity|discriminate|reflexivity|].
  apply (Hvalue (VInt 42) [Byte.x2a]); reflexivity.
Defined.

(** An object made from one raw byte, with both names. *)
Lemma create_from_data_unresolved_witness :
  ∃ obj,
    create_from_data [Byte.xab] config sample_metadata None (Some "System") (Some "Counter")
      = inr obj ∧
    data obj = Some [Byte.xab] ∧
    decode_scale_value obj None = inl AttributeError ∧
    decode_scale_value obj (Some (inl [Byte.x07])) = inl AttributeError ∧
    decode_key_data obj "0xab" 0 = inl TypeError.
Proof.
  destruct (create_from_data [Byte.xab] config sample_metadata None (Some "System")
              (Some "Counter")) as [e|obj] eqn:Eobj; [vm_compute in Eobj; discriminate|].
  destruct (create_from_data_unresolved _ _ _ _ _ _ _ Eobj)
    as (Hdata & _ & _ & _ & _ & Habsent & Hgiven & Hkey).
  exists obj. split_and!; [reflexivity|exact Hdata|exact Habsent|apply Hgiven|apply Hkey].
Defined.

(** The raw byte is replaced by the 32 bytes of the prefix of [Counter]. *)
Lemma generate_after_create_from_data_witness :
  ∃ obj,
    create_from_data [Byte.xab] config sample_metadata None (Some "System") (Some "Counter")
      = inr obj ∧
    (generate obj).1 = inr (key_prefix (declared counter [])) ∧
    data (generate obj).2 = Some (key_prefix (declared counter [])) ∧
    length (key_prefix (declared counter [])) = 32.
Proof.
  destruct (create_from_data [Byte.xab] config sample_metadata None (Some "System")
              (Some "Counter")) as [e|obj] eqn:Eobj; [vm_compute in Eobj; discriminate|].
  exists obj. split; [reflexivity|].
  apply (generate_after_create_from_data _ _ _ _ _ _ obj (declared counter []) Eobj).
  vm_compute in Eobj. injection Eobj as <-. repeat split; reflexivity.
Defined.

(** An address that is not hexadecimal is decoded once. *)
Lemma convert_storage_parameter_idempotent_witness :
  let self := address "Accounts" None in
  convert_storage_parameter sample_ss58_decode self "AccountId" (ParamStr "5G") = inr "0x3547" ∧
  convert_storage_parameter sample_ss58_decode self "AccountId" (ParamStr "0x3547")
    = inr "0x3547".
Proof.
  intros self.
  assert (convert_storage_parameter sample_ss58_decode self "AccountId" (ParamStr "5G")
          = inr "0x3547") as Hfirst by (vm_compute; reflexivity).
  split; [exact Hfirst|].
  exact (proj1 (convert_storage_parameter_idempotent sample_ss58_decode self "AccountId"
                  (ParamStr "5G") "0x3547" Hfirst)).
Defined.

(** The tail of a key of [Accounts] after 32 bytes that are not its
    prefix. *)
Lemma decode_key_data_ignores_prefix_witness :
  let self := (generate (address "Accounts" None)).2 in
  let tail := repeat Byte.x00 16 ++ [Byte.x07; Byte.x00] in
  decode_key_data self ("0x" +:+ hex (repeat Byte.xff 32 ++ tail)) 0 =
    decode_key_data self ("0x" +:+ hex (key_prefix (declared accounts [U16]) ++ tail)) 0.
Proof.
  intros self tail.
  destruct (decode_key_data_ignores_prefix self (key_prefix (declared accounts [U16]))
              (repeat Byte.xff 32) tail 0) as [_ Hsame].
  - vm_compute. reflexivity.
  - vm_compute. discriminate.
  - vm_compute. reflexivity.
  - exact Hsame.
Defined.

(** The object for a complete address of [Accounts] and its own key. *)
Lemma decode_key_data_own_key_witness :
  let self := (generate (address "Accounts" (Some [Native (VInt 7)]))).2 in
  let key := key_prefix (declared accounts [U16]) ++ blake2_128_concat [Byte.x07; Byte.x00] in
  (∀ hex_data decoded, decode_key_data self hex_data 1 ≠ inr decoded) ∧
  (∀ decoded, decode_key_data self ("0x" +:+ hex key) 0 ≠ inr decoded).
Proof.
  intros self key.
  destruct (decode_key_data_own_key self key [U16] [Some "Blake2_128Concat"])
    as [Hall Hnone].
  - vm_compute. reflexivity.
  - vm_compute. discriminate.
  - reflexivity.
  - reflexivity.
  - split; [intros hex_data decoded; apply Hall; cbn; lia|].
    apply Hnone; [discriminate|left; reflexivity].
Defined.

(** An object made for [Counter]. *)
Lemma decode_scale_value_after_create_witness :
  ∃ obj,
    create_from_storage_function (Some "System") (Some "Counter") None config sample_metadata
      = inr obj ∧
    ∀ (raw : option ScaleBytes) e,
      decode_scale_value obj (inl <$> raw) = inl e → e = ScaleError.
Proof.
  destruct (create_from_storage_function (Some "System") (Some "Counter") None config
              sample_metadata) as [e|obj] eqn:Emade; [vm_compute in Emade; discriminate|].
  exists obj. split; [reflexivity|].
  exact (proj1 (decode_scale_value_after_create _ _ _ _ _ obj Emade)).
Defined.

End FurtherExamples.
